(** * md_to_docx_converter: a shallow embedding and its verified properties

    The converter reads a Markdown file, turns it into HTML, walks the
    top-level nodes of the parsed HTML and appends styled paragraphs to a
    Word document.  This development embeds [clean_text],
    [process_html_to_docx], [convert_md_to_docx] and [convert_directory]
    of [md_to_docx_converter.py]. *)

From Stdlib Require Import String Ascii NArith ZArith Bool Lia DecimalString List.
Import ListNotations.

Local Open Scope N_scope.

(** ** Python strings

    A Python [str] is a sequence of Unicode code points. *)

Definition char := N.
Definition str := list char.

Definition ord (a : ascii) : char := N_of_ascii a.

(** A literal written in ASCII. *)
Fixpoint lit (s : string) : str :=
  match s with
  | EmptyString => []
  | String a s' => ord a :: lit s'
  end.

Definition chr_tab : char := 9.
Definition chr_newline : char := 10.
Definition chr_space : char := 32.
Definition chr_dquote : char := 34.
Definition chr_squote : char := 39.
Definition chr_hyphen : char := 45.
Definition chr_dot : char := 46.
Definition chr_slash : char := 47.
(** U+2013 EN DASH, the replacement written on line 43 of the source. *)
Definition chr_en_dash : char := 8211.
(** U+2014 EM DASH. *)
Definition chr_em_dash : char := 8212.
(** U+2500 BOX DRAWINGS LIGHT HORIZONTAL, the rule character of line 116. *)
Definition chr_box_horizontal : char := 9472.

(** [str.isspace] on one code point; the regular expression class [\s] on a
    [str] pattern tests the same set. *)
Definition isspace (c : char) : bool :=
  ((9 <=? c) && (c <=? 13))
  || ((28 <=? c) && (c <=? 32))
  || (c =? 133) || (c =? 160) || (c =? 5760)
  || ((8192 <=? c) && (c <=? 8202))
  || (c =? 8232) || (c =? 8233) || (c =? 8239) || (c =? 8287)
  || (c =? 12288).

(** Truthiness of a string: [if text:]. *)
Definition truthy (s : str) : bool :=
  match s with
  | [] => false
  | _ :: _ => true
  end.

Fixpoint str_eqb (a b : str) : bool :=
  match a, b with
  | [], [] => true
  | x :: a', y :: b' => (x =? y) && str_eqb a' b'
  | _, _ => false
  end.

(** [s.startswith(prefix)]. *)
Fixpoint startswith (s prefix : str) {struct prefix} : bool :=
  match prefix with
  | [] => true
  | p :: ps =>
      match s with
      | [] => false
      | c :: cs => (c =? p) && startswith cs ps
      end
  end.

(** [s.endswith(suffix)]. *)
Definition endswith (s suffix : str) : bool :=
  startswith (rev s) (rev suffix).

(** [s.lstrip()], [s.rstrip()] and [s.strip()] with no argument. *)
Fixpoint lstrip (s : str) : str :=
  match s with
  | [] => []
  | c :: rest => if isspace c then lstrip rest else s
  end.

Definition rstrip (s : str) : str := rev (lstrip (rev s)).

Definition strip (s : str) : str := rstrip (lstrip s).

(** [s.replace(old, new)]: the occurrences of [old] are found from the left
    and do not overlap.  The scan consumes at least one code point per step,
    so [length s] steps are enough. *)
Fixpoint replace_fuel (fuel : nat) (old new : str) (s : str) : str :=
  match fuel with
  | O => s
  | S fuel' =>
      match s with
      | [] => []
      | c :: rest =>
          if startswith s old
          then new ++ replace_fuel fuel' old new (skipn (length old) s)
          else c :: replace_fuel fuel' old new rest
      end
  end.

Definition replace (old new : str) (s : str) : str :=
  match old with
  | [] => new ++ flat_map (fun c => c :: new) s
  | _ :: _ => replace_fuel (length s) old new s
  end.

(** ** Regular-expression substitutions of [clean_text] *)

(** [re.sub(r'\s+', ' ', text)].  [in_match] says that the scan is inside a
    run of whitespace whose replacement has been emitted already. *)
Fixpoint sub_whitespace_runs (in_match : bool) (text : str) : str :=
  match text with
  | [] => []
  | c :: rest =>
      if isspace c
      then (if in_match then [] else [chr_space]) ++ sub_whitespace_runs true rest
      else c :: sub_whitespace_runs false rest
  end.

(** The tail [\s*\n] of the pattern [\n\s*\n], matched at the head of [s]:
    the text left after the match.  [\s*] is greedy, so a longer match wins;
    a newline is itself whitespace, so the backtracking step gives the
    newline back. *)
Fixpoint match_blank_tail (s : str) : option str :=
  match s with
  | [] => None
  | c :: rest =>
      if isspace c then
        match match_blank_tail rest with
        | Some rest' => Some rest'
        | None => if c =? chr_newline then Some rest else None
        end
      else None
  end.

(** [re.sub(r'\n\s*\n', '\n', text)]. *)
Fixpoint sub_blank_lines_fuel (fuel : nat) (text : str) : str :=
  match fuel with
  | O => text
  | S fuel' =>
      match text with
      | [] => []
      | c :: rest =>
          if c =? chr_newline then
            match match_blank_tail rest with
            | Some rest' => chr_newline :: sub_blank_lines_fuel fuel' rest'
            | None => c :: sub_blank_lines_fuel fuel' rest
            end
          else c :: sub_blank_lines_fuel fuel' rest
      end
  end.

Definition sub_blank_lines (text : str) : str :=
  sub_blank_lines_fuel (length text) text.

(** ** [clean_text] (lines 25-46) *)

(** Line 36: [re.sub(r'\s+', ' ', text)]. *)
Definition remove_multiple_spaces (text : str) : str :=
  sub_whitespace_runs false text.

(** Lines 40-41.  Line 40 replaces the straight double quote by itself,
    twice.  On line 41 the three apostrophes open a triple-quoted literal
    that runs up to the next three apostrophes, so the statement is one call
    of [replace]: its first argument is the fifteen-character string
    [quote_pattern], its second the apostrophe. *)
Definition quote_pattern : str :=
  lit ", " ++ [chr_dquote; chr_squote; chr_dquote] ++ lit ").replace(".

Definition normalize_quotes (text : str) : str :=
  let text := replace [chr_dquote] [chr_dquote] (replace [chr_dquote] [chr_dquote] text) in
  replace quote_pattern [chr_squote] text.

(** Line 43: [text.replace('--', c)], where [c] is U+2013 EN DASH. *)
Definition normalize_dashes (text : str) : str :=
  replace [chr_hyphen; chr_hyphen] [chr_en_dash] text.

(** Line 45: [re.sub(r'\n\s*\n', '\n', text)]. *)
Definition remove_duplicate_newlines (text : str) : str :=
  sub_blank_lines text.

Definition clean_text (text : str) : str :=
  let text := remove_multiple_spaces text in
  let text := strip text in
  let text := normalize_quotes text in
  let text := normalize_dashes text in
  let text := remove_duplicate_newlines text in
  text.

(** ** The parsed HTML (BeautifulSoup)

    A node is a string of text ([element.name is None]) or a tag with its
    name and children.  The soup itself is the list of its top-level
    nodes, [soup.children]. *)

#[warnings="-register-all"]
Inductive node : Type :=
| NavigableString (s : str)
| Tag (name : str) (children : list node).

Definition soup := list node.

(** [element.get_text()]: the text of all descendants, in document order. *)
Fixpoint get_text (element : node) : str :=
  match element with
  | NavigableString s => s
  | Tag _ children => flat_map get_text children
  end.

Definition has_name (name : str) (element : node) : bool :=
  match element with
  | NavigableString _ => false
  | Tag n _ => str_eqb n name
  end.

(** [element.find_all(name, recursive=False)]: the direct children that are
    tags of that name. *)
Definition find_all (name : str) (children : list node) : list node :=
  filter (has_name name) children.

(** [name in [...]]. *)
Definition name_in (name : str) (names : list str) : bool :=
  existsb (str_eqb name) names.

(** ** The Word document (python-docx) *)

(** [Pt(n)]: a length of [n] points. *)
Inductive Length : Type :=
| Pt (points : N).

Record run : Type := mk_run {
  run_text : str;
  run_italic : option bool;
  run_font_name : option str;
  run_font_size : option Length
}.

Record paragraph : Type := mk_paragraph {
  p_style : option str;
  p_runs : list run;
  p_left_indent : option Length;
  p_right_indent : option Length;
  p_alignment : option N
}.

(** The document body: paragraphs in the order they were added. *)
Definition document := list paragraph.

Definition new_run (text : str) : run :=
  mk_run text None None None.

(** The paragraph [doc.add_paragraph(text)] creates: one run when [text] is
    not empty, no run otherwise; no style or formatting of its own. *)
Definition new_paragraph (text : str) : paragraph :=
  mk_paragraph None (if truthy text then [new_run text] else []) None None None.

(** [p = doc.add_paragraph(text)]: the paragraph is appended to the body. *)
Definition add_paragraph (text : str) (doc : document) : document :=
  doc ++ [new_paragraph text].

(** A statement on [p], the paragraph added last, changes it in the body. *)
Fixpoint on_p (f : paragraph -> paragraph) (doc : document) : document :=
  match doc with
  | [] => []
  | p :: rest =>
      match rest with
      | [] => [f p]
      | _ :: _ => p :: on_p f rest
      end
  end.

(** A statement on [run], the run added last to a paragraph. *)
Fixpoint on_run (f : run -> run) (runs : list run) : list run :=
  match runs with
  | [] => []
  | r :: rest =>
      match rest with
      | [] => [f r]
      | _ :: _ => r :: on_run f rest
      end
  end.

Definition set_style (style : str) (p : paragraph) : paragraph :=
  mk_paragraph (Some style) (p_runs p) (p_left_indent p) (p_right_indent p) (p_alignment p).

Definition set_left_indent (l : Length) (p : paragraph) : paragraph :=
  mk_paragraph (p_style p) (p_runs p) (Some l) (p_right_indent p) (p_alignment p).

Definition set_right_indent (l : Length) (p : paragraph) : paragraph :=
  mk_paragraph (p_style p) (p_runs p) (p_left_indent p) (Some l) (p_alignment p).

Definition set_alignment (a : N) (p : paragraph) : paragraph :=
  mk_paragraph (p_style p) (p_runs p) (p_left_indent p) (p_right_indent p) (Some a).

Definition set_runs (runs : list run) (p : paragraph) : paragraph :=
  mk_paragraph (p_style p) runs (p_left_indent p) (p_right_indent p) (p_alignment p).

(** [run = p.add_run(text)]. *)
Definition add_run (text : str) (p : paragraph) : paragraph :=
  set_runs (p_runs p ++ [new_run text]) p.

Definition set_italic (b : bool) (r : run) : run :=
  mk_run (run_text r) (Some b) (run_font_name r) (run_font_size r).

Definition set_font_name (name : str) (r : run) : run :=
  mk_run (run_text r) (run_italic r) (Some name) (run_font_size r).

Definition set_font_size (size : Length) (r : run) : run :=
  mk_run (run_text r) (run_italic r) (run_font_name r) (Some size).

(** ** [process_html_to_docx] (lines 49-117) *)

(** [int(c)] for a decimal digit. *)
Definition int_of_digit (c : char) : N := c - 48.

(** An integer inside an f-string. *)
Definition format_int (n : N) : str :=
  lit (NilEmpty.string_of_uint (N.to_uint n)).

Definition heading_names : list str :=
  [lit "h1"; lit "h2"; lit "h3"; lit "h4"; lit "h5"; lit "h6"].

(** Lines 84-89, the body of the loop over the list items; [ul] says
    whether [element.name == 'ul']. *)
Definition process_list_item (ul : bool) (doc : document) (li : node) : document :=
  let text := clean_text (get_text li) in
  if truthy text then
    let doc := add_paragraph text doc in
    let doc := on_p (set_style (if ul then lit "List Bullet" else lit "List Number")) doc in
    on_p (set_left_indent (Pt 36)) doc
  else doc.

(** Lines 58-117, the body of the loop over [soup.children]. *)
Definition process_element (doc : document) (element : node) : document :=
  match element with
  | NavigableString s =>
      if negb (truthy (strip s)) then doc
      else
        let text := clean_text s in
        if truthy text then
          on_p (set_style (lit "Normal")) (add_paragraph text doc)
        else doc
  | Tag name children =>
      if name_in name heading_names then
        let level := int_of_digit (nth 1 name 0) in
        let text := clean_text (get_text element) in
        if truthy text then
          on_p (set_style (lit "Heading " ++ format_int level)) (add_paragraph text doc)
        else doc
      else if str_eqb name (lit "p") then
        let text := clean_text (get_text element) in
        if truthy text then
          on_p (set_style (lit "Normal")) (add_paragraph text doc)
        else doc
      else if name_in name [lit "ul"; lit "ol"] then
        fold_left (process_list_item (str_eqb name (lit "ul")))
                  (find_all (lit "li") children) doc
      else if str_eqb name (lit "blockquote") then
        let text := clean_text (get_text element) in
        if truthy text then
          let doc := add_paragraph text doc in
          let doc := on_p (set_style (lit "Quote")) doc in
          let doc := on_p (set_left_indent (Pt 48)) doc in
          on_p (fun p => set_runs (map (set_italic true) (p_runs p)) p) doc
        else doc
      else if str_eqb name (lit "pre") then
        let text := clean_text (get_text element) in
        if truthy text then
          let doc := add_paragraph [] doc in
          let doc := on_p (set_style (lit "No Spacing")) doc in
          let doc := on_p (add_run text) doc in
          let doc := on_p (fun p => set_runs (on_run (set_font_name (lit "Courier New")) (p_runs p)) p) doc in
          let doc := on_p (fun p => set_runs (on_run (set_font_size (Pt 10)) (p_runs p)) p) doc in
          let doc := on_p (set_left_indent (Pt 36)) doc in
          on_p (set_right_indent (Pt 36)) doc
        else doc
      else if str_eqb name (lit "hr") then
        let doc := add_paragraph [] doc in
        let doc := on_p (set_alignment 1) doc in
        let doc := on_p (add_run (repeat chr_box_horizontal 30)) doc in
        on_p (fun p => set_runs (on_run (set_font_size (Pt 12)) (p_runs p)) p) doc
      else doc
  end.

Definition process_html_to_docx (soup : soup) (doc : document) : document :=
  fold_left process_element soup doc.

(** The paragraphs one node adds to the document. *)
Definition appended (element : node) : list paragraph :=
  process_element [] element.

(** ** Path functions ([os.path] on a POSIX system) *)

(** [s.rfind(c)] for a one-character [c]: the last index of [c] in [s], or
    [-1]; [i] is the index of the head of [s]. *)
Fixpoint rfind_from (i : Z) (s : str) (c : char) : Z :=
  match s with
  | [] => (-1)%Z
  | x :: rest =>
      let j := rfind_from (i + 1) rest c in
      if (0 <=? j)%Z then j else if x =? c then i else (-1)%Z
  end.

Definition rfind (s : str) (c : char) : Z := rfind_from 0 s c.

(** The slices [p[:i]], [p[i:]] and [p[i:j]] for indices that are not
    negative. *)
Definition slice_to (i : Z) (p : str) : str := firstn (Z.to_nat i) p.
Definition slice_from (i : Z) (p : str) : str := skipn (Z.to_nat i) p.
Definition slice (i j : Z) (p : str) : str := slice_to (j - i) (slice_from i p).

(** [os.path.splitext(p)]: the extension starts at the last dot of the last
    path component, unless only dots precede it there. *)
Definition splitext (p : str) : str * str :=
  let sepIndex := rfind p chr_slash in
  let dotIndex := rfind p chr_dot in
  if (sepIndex <? dotIndex)%Z then
    (* skip all leading dots *)
    if existsb (fun c => negb (c =? chr_dot)) (slice (sepIndex + 1) dotIndex p)
    then (slice_to dotIndex p, slice_from dotIndex p)
    else (p, [])
  else (p, []).

(** [os.path.basename(p)]. *)
Definition basename (p : str) : str :=
  slice_from (rfind p chr_slash + 1) p.

(** [head.rstrip('/')]. *)
Fixpoint lstrip_char (c : char) (s : str) : str :=
  match s with
  | [] => []
  | x :: rest => if x =? c then lstrip_char c rest else s
  end.

Definition rstrip_char (c : char) (s : str) : str :=
  rev (lstrip_char c (rev s)).

(** [os.path.dirname(p)]. *)
Definition dirname (p : str) : str :=
  let head := slice_to (rfind p chr_slash + 1) p in
  if truthy head && negb (str_eqb head (repeat chr_slash (length head)))
  then rstrip_char chr_slash head
  else head.

(** [os.path.join(a, b)]. *)
Definition join (a b : str) : str :=
  if startswith b [chr_slash] then b
  else if negb (truthy a) || endswith a [chr_slash] then a ++ b
  else a ++ [chr_slash] ++ b.

(** [s.lower()].  Only the letters A-Z are mapped here; the lower-case form
    of no other code point ends in a full stop, an [m] or a [d], so the test
    [filename.lower().endswith('.md')] is the same under the full mapping. *)
Definition lower_char (c : char) : char :=
  if (65 <=? c) && (c <=? 90) then c + 32 else c.

Definition lower (s : str) : str := map lower_char s.

(** ** Exceptions, the file system and standard output *)

(** An exception is an [OSError] ([IOError] is the same class) or of any
    other class; either carries the text [str(e)]. *)
Inductive exn : Type :=
| OSError (msg : str)
| OtherError (msg : str).

Definition exn_str (e : exn) : str :=
  match e with
  | OSError msg => msg
  | OtherError msg => msg
  end.

(** [isinstance(e, (IOError, OSError))]. *)
Definition is_OSError (e : exn) : bool :=
  match e with
  | OSError _ => true
  | OtherError _ => false
  end.

Inductive outcome (A : Type) : Type :=
| Returned (a : A)
| Raised (e : exn).

Arguments Returned {A} a.
Arguments Raised {A} e.

(** The collaborators of the converter: the file system, the Markdown
    converter, the HTML parser, the XML library under the document and the
    document writer.  Each may raise. *)
Class Platform : Type := {
  World : Type;
  (** [open(path, 'r', encoding='utf-8')] and [f.read()] *)
  open_read : str -> World -> outcome str;
  (** [markdown.markdown(md_content)] *)
  markdown : str -> outcome str;
  (** [BeautifulSoup(html, 'html.parser')] *)
  BeautifulSoup : str -> outcome soup;
  (** the text of a run as [doc.add_paragraph(text)] and [p.add_run(text)]
      hand it to the XML library, which raises a [ValueError] for a text it
      cannot hold (one with a control character, say) *)
  store_text : str -> outcome unit;
  (** [os.path.isdir(path)] *)
  isdir : str -> World -> bool;
  (** [os.makedirs(path, exist_ok=True)] *)
  makedirs : str -> World -> outcome unit * World;
  (** [doc.save(path)] *)
  save : document -> str -> World -> outcome unit * World;
  (** [os.listdir(path)] *)
  listdir : str -> World -> outcome (list str)
}.

Section InputOutput.

Context {platform : Platform}.

(** The state a call runs in: the file system and the lines printed. *)
Record state : Type := mk_state {
  world : World;
  stdout : list str
}.

Definition IO (A : Type) : Type := state -> outcome A * state.

Definition ret {A : Type} (a : A) : IO A :=
  fun st => (Returned a, st).

Definition bind {A B : Type} (m : IO A) (k : A -> IO B) : IO B :=
  fun st =>
    match m st with
    | (Returned a, st') => k a st'
    | (Raised e, st') => (Raised e, st')
    end.

(** [try: body except (IOError, OSError) as e: handler]: an exception of
    another class goes on to the caller. *)
Definition try_except_OSError {A : Type} (body : IO A) (handler : exn -> IO A) : IO A :=
  fun st =>
    match body st with
    | (Returned a, st') => (Returned a, st')
    | (Raised e, st') => if is_OSError e then handler e st' else (Raised e, st')
    end.

Definition print (line : str) : IO unit :=
  fun st => (Returned tt, mk_state (world st) (stdout st ++ [line])).

(** A call that may raise and leaves the file system as it is. *)
Definition call {A : Type} (f : World -> outcome A) : IO A :=
  fun st => (f (world st), st).

(** A call that may raise and may change the file system. *)
Definition call_write {A : Type} (f : World -> outcome A * World) : IO A :=
  fun st => let (r, w) := f (world st) in (r, mk_state w (stdout st)).

End InputOutput.

Notation "x <- m ;; k" := (bind m (fun x => k))
  (at level 61, m at next level, right associativity).
Notation "m ;; k" := (bind m (fun _ => k))
  (at level 61, right associativity).

Section Converters.

Context {platform : Platform}.

(** ** [convert_md_to_docx] (lines 120-170) *)

(** Lines 146-157: the output path, in the file system [w]. *)
Definition output_file_of (w : World) (input_file : str) (output_path : option str) : str :=
  match output_path with
  | None =>
      (* Use the same name as input with .docx extension *)
      fst (splitext input_file) ++ lit ".docx"
  | Some output_path =>
      (* If output_path is a directory, create output file path inside it *)
      if isdir output_path w then
        let input_filename := basename input_file in
        let output_filename := fst (splitext input_filename) ++ lit ".docx" in
        join output_path output_filename
      else output_path
  end.

(** Lines 160-162: [if output_dir: os.makedirs(output_dir, exist_ok=True)]. *)
Definition ensure_directory (output_dir : str) (w : World) : outcome unit * World :=
  if truthy output_dir then makedirs output_dir w else (Returned tt, w).

(** The texts of the runs of a document, in the order of the calls
    [doc.add_paragraph(text)] and [p.add_run(text)] that made the runs. *)
Definition run_texts (doc : document) : list str :=
  flat_map (fun p => map run_text (p_runs p)) doc.

(** The XML library takes the texts one after the other; the first one it
    refuses raises, and no later call is made. *)
Fixpoint store_texts (texts : list str) : outcome unit :=
  match texts with
  | [] => Returned tt
  | text :: rest =>
      match store_text text with
      | Returned _ => store_texts rest
      | Raised e => Raised e
      end
  end.

(** Lines 141-144: [doc = Document()] and [process_html_to_docx(soup, doc)].
    The document is in memory only: when a call of [doc.add_paragraph] or
    [p.add_run] raises, the exception leaves [process_html_to_docx] and the
    paragraphs added so far are lost with [doc]; otherwise [doc] holds the
    paragraphs of the whole soup. *)
Definition build_document (soup : soup) : outcome document :=
  let doc := process_html_to_docx soup [] in
  match store_texts (run_texts doc) with
  | Returned _ => Returned doc
  | Raised e => Raised e
  end.

(** Lines 132-167, the body of the [try]. *)
Definition convert_md_to_docx_try (input_file : str) (output_path : option str) : IO bool :=
  md_content <- call (open_read input_file) ;;
  html <- call (fun _ => markdown md_content) ;;
  soup <- call (fun _ => BeautifulSoup html) ;;
  doc <- call (fun _ => build_document soup) ;;
  output_file <- call (fun w => Returned (output_file_of w input_file output_path)) ;;
  let output_dir := dirname output_file in
  call_write (ensure_directory output_dir) ;;
  call_write (save doc output_file) ;;
  print (lit "Successfully converted " ++ input_file ++ lit " to " ++ output_file) ;;
  ret true.

(** Lines 168-170, the [except] clause. *)
Definition convert_md_to_docx_except (input_file : str) (e : exn) : IO bool :=
  print (lit "Error processing file " ++ input_file ++ lit ": " ++ exn_str e) ;;
  ret false.

Definition convert_md_to_docx (input_file : str) (output_path : option str) : IO bool :=
  try_except_OSError (convert_md_to_docx_try input_file output_path)
                     (convert_md_to_docx_except input_file).

(** ** [convert_directory] (lines 173-203) *)

(** Line 194: [filename.lower().endswith('.md')]. *)
Definition is_markdown_name (filename : str) : bool :=
  endswith (lower filename) (lit ".md").

(** Lines 193-199: the loop over the directory listing; [counts] is
    [(success_count, failure_count)]. *)
Fixpoint convert_entries (directory_path : str) (output_path : option str)
    (filenames : list str) (counts : N * N) : IO (N * N) :=
  match filenames with
  | [] => ret counts
  | filename :: rest =>
      if is_markdown_name filename then
        let input_file := join directory_path filename in
        converted <- convert_md_to_docx input_file output_path ;;
        if converted
        then convert_entries directory_path output_path rest (fst counts + 1, snd counts)
        else convert_entries directory_path output_path rest (fst counts, snd counts + 1)
      else convert_entries directory_path output_path rest counts
  end.

(** Lines 201-203: the summary. *)
Definition summary (counts : N * N) : list str :=
  [chr_newline :: lit "Conversion complete!";
   lit "Successfully converted: " ++ format_int (fst counts) ++ lit " files";
   lit "Failed conversions: " ++ format_int (snd counts) ++ lit " files"].

Definition print_summary (counts : N * N) : IO unit :=
  print (chr_newline :: lit "Conversion complete!") ;;
  print (lit "Successfully converted: " ++ format_int (fst counts) ++ lit " files") ;;
  print (lit "Failed conversions: " ++ format_int (snd counts) ++ lit " files").

(** Lines 186-187: [if output_path: os.makedirs(output_path, exist_ok=True)]. *)
Definition create_output_directory (output_path : option str) (w : World)
  : outcome unit * World :=
  match output_path with
  | Some path => if truthy path then makedirs path w else (Returned tt, w)
  | None => (Returned tt, w)
  end.

Definition convert_directory (directory_path : str) (output_path : option str) : IO unit :=
  is_directory <- call (fun w => Returned (isdir directory_path w)) ;;
  if negb is_directory then
    print (lit "Error: " ++ directory_path ++ lit " is not a directory")
  else
    (* Create output directory if specified *)
    call_write (create_output_directory output_path) ;;
    filenames <- call (listdir directory_path) ;;
    counts <- convert_entries directory_path output_path filenames (0, 0) ;;
    print_summary counts.

End Converters.

(** ** A small platform to run the converters on

    An in-memory file system: a path is bound to a directory, to a text
    file, or to a file whose bytes are not UTF-8.  The first binding of a
    path counts.  The Markdown converter and the HTML parser are stand-ins:
    the whole text becomes one paragraph element.  The XML library refuses
    a text with a control character. *)

Module Sample.

Inductive entry : Type :=
| Directory
| TextFile (content : str)
| BinaryFile.

Definition file_system := list (str * entry).

Fixpoint lookup (path : str) (w : file_system) : option entry :=
  match w with
  | [] => None
  | (p, e) :: rest => if str_eqb p path then Some e else lookup path rest
  end.

Definition sample_open_read (path : str) (w : file_system) : outcome str :=
  match lookup path w with
  | Some (TextFile content) => Returned content
  | Some BinaryFile => Raised (OtherError (lit "UnicodeDecodeError: invalid start byte"))
  | Some Directory => Raised (OSError (lit "[Errno 21] Is a directory: " ++ path))
  | None => Raised (OSError (lit "[Errno 2] No such file or directory: " ++ path))
  end.

Definition sample_isdir (path : str) (w : file_system) : bool :=
  match lookup path w with
  | Some Directory => true
  | _ => false
  end.

Definition sample_makedirs (path : str) (w : file_system) : outcome unit * file_system :=
  match lookup path w with
  | Some Directory => (Returned tt, w)
  | Some _ => (Raised (OSError (lit "[Errno 17] File exists: " ++ path)), w)
  | None => (Returned tt, (path, Directory) :: w)
  end.

Definition sample_save (doc : document) (path : str) (w : file_system)
  : outcome unit * file_system :=
  match lookup path w with
  | Some Directory => (Raised (OSError (lit "[Errno 21] Is a directory: " ++ path)), w)
  | _ =>
      if truthy path then (Returned tt, (path, BinaryFile) :: w)
      else (Raised (OSError (lit "[Errno 2] No such file or directory: ")), w)
  end.

Definition sample_listdir (path : str) (w : file_system) : outcome (list str) :=
  match lookup path w with
  | Some Directory =>
      Returned (map (fun pe => basename (fst pe))
                    (filter (fun pe => truthy (basename (fst pe)) && str_eqb (dirname (fst pe)) path) w))
  | Some _ => Raised (OSError (lit "[Errno 20] Not a directory: " ++ path))
  | None => Raised (OSError (lit "[Errno 2] No such file or directory: " ++ path))
  end.

(** The characters the XML library refuses: the control characters below
    U+0020 other than tab, newline and carriage return. *)
Definition is_control (c : char) : bool :=
  (c <? 32) && negb ((c =? 9) || (c =? 10) || (c =? 13)).

Definition sample_store_text (text : str) : outcome unit :=
  if existsb is_control text
  then Raised (OtherError (lit "ValueError: All strings must be XML compatible"))
  else Returned tt.

#[export] Instance sample_platform : Platform := {
  World := file_system;
  open_read := sample_open_read;
  markdown := fun md_content => Returned md_content;
  BeautifulSoup := fun html => Returned [Tag (lit "p") [NavigableString html]];
  store_text := sample_store_text;
  isdir := sample_isdir;
  makedirs := sample_makedirs;
  save := sample_save;
  listdir := sample_listdir
}.

(** A directory [docs] with a text file, a file that is not UTF-8 and a
    subdirectory whose name ends in [.MD]; [out] is a directory too. *)
Definition docs : file_system :=
  [(lit "docs", Directory);
   (lit "out", Directory);
   (lit "docs/bad.md", BinaryFile);
   (lit "docs/note.md", TextFile (lit "Some  text."));
   (lit "docs/sub.MD", Directory);
   (lit "docs/readme.txt", TextFile (lit "plain"))].

(** A directory [drafts] whose first file holds a control character
    (U+0001) between two letters. *)
Definition drafts : file_system :=
  [(lit "drafts", Directory);
   (lit "drafts/ctl.md", TextFile (lit "a" ++ [1] ++ lit "b"));
   (lit "drafts/ok.md", TextFile (lit "fine"))].

(** The state of a run in the file system [w] after the lines [printed]. *)
Definition running (w : file_system) (printed : list str) : state :=
  @mk_state sample_platform w printed.

Definition start (w : file_system) : state := running w [].

End Sample.

(** ** [main] (lines 206-236) *)

(** [raise e]. *)
Definition raise {platform : Platform} {A : Type} (e : exn) : IO A :=
  fun st => (Raised e, st).

(** What [main] needs besides the collaborators of the converter. *)
Class CommandLine (platform : Platform) : Type := {
  (** [os.path.isfile(path)] *)
  isfile : str -> World -> bool
}.

(** [args], the result of [parser.parse_args()]: [args.input] is [None]
    when the option is left out, [args.output] is [None] by default. *)
Record Namespace : Type := mk_Namespace {
  args_input : option str;
  args_output : option str
}.

Section Main.

Context {platform : Platform} {command_line : CommandLine platform}.

(** [os.path.isfile(None)] raises a [TypeError]. *)
Definition isfile_of_None : exn :=
  OtherError (lit "stat: path should be string, bytes, os.PathLike or integer, not NoneType").

(** Lines 228-235, for the parsed arguments [args]. *)
Definition main (args : Namespace) : IO unit :=
  match args_input args with
  | None => raise isfile_of_None
  | Some input =>
      is_file <- call (fun w => Returned (isfile input w)) ;;
      if is_file then
        (* Convert single file *)
        convert_md_to_docx input (args_output args) ;;
        ret tt
      else
        is_directory <- call (fun w => Returned (isdir input w)) ;;
        if is_directory then
          (* Convert all directory *)
          convert_directory input (args_output args)
        else
          print (lit "Error: " ++ input ++ lit " is not a valid file or directory")
  end.

End Main.

Module SampleCommandLine.

Definition sample_isfile (path : str) (w : Sample.file_system) : bool :=
  match Sample.lookup path w with
  | Some (Sample.TextFile _) => true
  | Some Sample.BinaryFile => true
  | _ => false
  end.

#[global] Instance sample_command_line : CommandLine Sample.sample_platform := {
  isfile := sample_isfile
}.

End SampleCommandLine.

(** * Vocabulary of the statements *)

(** The text starts, or ends, with a whitespace character. *)
Definition starts_ws (s : str) : bool :=
  match s with
  | [] => false
  | c :: _ => isspace c
  end.

Fixpoint ends_ws (s : str) : bool :=
  match s with
  | [] => false
  | c :: rest =>
      match rest with
      | [] => isspace c
      | _ :: _ => ends_ws rest
      end
  end.

(** No whitespace character is followed by another one. *)
Fixpoint no_adjacent_ws (s : str) : Prop :=
  match s with
  | [] => True
  | c :: rest => (isspace c = true -> starts_ws rest = false) /\ no_adjacent_ws rest
  end.

(** The only whitespace character of the text is the space. *)
Definition only_spaces (s : str) : Prop :=
  Forall (fun c => isspace c = true -> c = chr_space) s.

(** What [strip] after [remove_multiple_spaces] establishes. *)
Record tidy (s : str) : Prop := mk_tidy {
  tidy_spaces : only_spaces s;
  tidy_adjacent : no_adjacent_ws s;
  tidy_start : starts_ws s = false;
  tidy_end : ends_ws s = false
}.

(** A replacement text that cannot disturb the whitespace shape. *)
Definition solid (new : str) : Prop :=
  new <> [] /\ Forall (fun c => isspace c = false) new.

(** The text starts with a hyphen. *)
Definition starts_hyphen (s : str) : bool :=
  match s with
  | [] => false
  | c :: _ => c =? chr_hyphen
  end.

(** [old] occurs nowhere in [s]. *)
Definition free_of (old s : str) : Prop := forall l r, s <> l ++ old ++ r.

(** The text is empty or made of whitespace characters only. *)
Definition whitespace_only (s : str) : Prop := Forall (fun c => isspace c = true) s.

(** A paragraph of one plain run, as [doc.add_paragraph(text)] followed by
    [p.style = style] leaves it for a text that is not empty. *)
Definition styled (style : str) (text : str) : paragraph :=
  mk_paragraph (Some style) [new_run text] None None None.

(** The paragraphs the branches for list items, quotes, code blocks and
    rules leave in the document. *)
Definition list_item_paragraph (ul : bool) (text : str) : paragraph :=
  mk_paragraph (Some (if ul then lit "List Bullet" else lit "List Number"))
               [new_run text] (Some (Pt 36)) None None.

Definition quote_paragraph (text : str) : paragraph :=
  mk_paragraph (Some (lit "Quote")) [mk_run text (Some true) None None]
               (Some (Pt 48)) None None.

Definition code_paragraph (text : str) : paragraph :=
  mk_paragraph (Some (lit "No Spacing"))
               [mk_run text None (Some (lit "Courier New")) (Some (Pt 10))]
               (Some (Pt 36)) (Some (Pt 36)) None.

(** [WD_ALIGN_PARAGRAPH.CENTER]. *)
Definition CENTER : N := 1.

Definition rule_paragraph : paragraph :=
  mk_paragraph None [mk_run (repeat chr_box_horizontal 30) None None (Some (Pt 12))]
               None None (Some CENTER).

(** A paragraph for a text when it is not empty. *)
Definition when_text (text : str) (p : str -> paragraph) : list paragraph :=
  if truthy text then [p text] else [].

(** The paragraphs of a node, by the branch that handles it. *)
Definition paragraphs_of (element : node) : list paragraph :=
  match element with
  | NavigableString s =>
      if truthy (strip s) then when_text (clean_text s) (styled (lit "Normal")) else []
  | Tag name children =>
      let text := clean_text (get_text element) in
      if name_in name heading_names then
        when_text text (styled (lit "Heading " ++ format_int (int_of_digit (nth 1 name 0))))
      else if str_eqb name (lit "p") then when_text text (styled (lit "Normal"))
      else if name_in name [lit "ul"; lit "ol"] then
        flat_map (fun li => when_text (clean_text (get_text li))
                                      (list_item_paragraph (str_eqb name (lit "ul"))))
                 (find_all (lit "li") children)
      else if str_eqb name (lit "blockquote") then when_text text quote_paragraph
      else if str_eqb name (lit "pre") then when_text text code_paragraph
      else if str_eqb name (lit "hr") then [rule_paragraph]
      else []
  end.

(** Kinds of nodes, and the direct [li] children of a node. *)
Definition is_list (element : node) : bool :=
  match element with
  | NavigableString _ => false
  | Tag name _ => name_in name [lit "ul"; lit "ol"]
  end.

Definition is_rule (element : node) : bool := has_name (lit "hr") element.

Definition list_items (element : node) : list node :=
  match element with
  | NavigableString _ => []
  | Tag _ children => find_all (lit "li") children
  end.

(** The extension [splitext] returns: empty, or a dot followed by
    characters that are neither a dot nor a slash. *)
Definition is_extension (ext : str) : Prop :=
  ext = [] \/ exists r, ext = chr_dot :: r /\ ~ In chr_dot r /\ ~ In chr_slash r.

(** A name that ends in [.md], whatever the case of the two letters. *)
Definition markdown_suffix (filename : str) : Prop :=
  exists stem m d,
    filename = stem ++ [chr_dot; m; d]
    /\ (m = ord "m" \/ m = ord "M") /\ (d = ord "d" \/ d = ord "D").

(** The entries the loop converts. *)
Definition matches (filenames : list str) : list str := filter is_markdown_name filenames.

(** Sample nodes: a list of two items, and a list whose only item is blank. *)
Definition two_item_list : node :=
  Tag (lit "ul") [Tag (lit "li") [NavigableString (lit "one")];
                  Tag (lit "li") [NavigableString (lit "two")]].

Definition empty_item_list : node :=
  Tag (lit "ul") [Tag (lit "li") [NavigableString (lit "  ")]].

(** A text that line 41 turns into its own pattern: the pattern with its
    apostrophe replaced by the pattern itself. *)
Definition idempotence_failing_input : str :=
  lit ", " ++ [chr_dquote] ++ quote_pattern ++ [chr_dquote] ++ lit ").replace(".

Section ConverterVocabulary.

Context {platform : Platform}.

(** The two lines [convert_md_to_docx] prints. *)
Definition error_line (input_file : str) (e : exn) : str :=
  lit "Error processing file " ++ input_file ++ lit ": " ++ exn_str e.

Definition success_line (input_file output_file : str) : str :=
  lit "Successfully converted " ++ input_file ++ lit " to " ++ output_file.

(** What [convert_md_to_docx] returns when an exception [e] leaves the
    [try] in the file system [w]. *)
Definition handled (input_file : str) (st : state) (e : exn) (w : World)
  : outcome bool * state :=
  if is_OSError e
  then (Returned false, mk_state w (stdout st ++ [error_line input_file e]))
  else (Raised e, mk_state w (stdout st)).



(** What a run of [convert_md_to_docx] comes to: the document was saved and
    the success line printed, or an exception left the [try]. *)
Inductive conversion (input_file : str) (output_path : option str) (st : state)
  : outcome bool * state -> Prop :=
| conversion_done (soup : soup) (w1 w2 : World) :
    save (process_html_to_docx soup []) (output_file_of (world st) input_file output_path) w1
    = (Returned tt, w2) ->
    conversion input_file output_path st
      (Returned true,
       mk_state w2 (stdout st ++ [success_line input_file
                                    (output_file_of (world st) input_file output_path)]))
| conversion_failed (e : exn) (w : World) :
    conversion input_file output_path st (handled input_file st e w).

(** The XML library takes the text. *)
Definition accepted (text : str) : Prop := store_text text = Returned tt.

(** The calls of [convert_md_to_docx] for the names [filenames] of a
    directory, one after the other from the state [st]: each call returns,
    [results] are the booleans returned, and [st'] is the state the last
    call leaves. *)
Inductive calls (directory_path : str) (output_path : option str)
  : list str -> state -> list bool -> state -> Prop :=
| calls_none (st : state) :
    calls directory_path output_path [] st [] st
| calls_next (filename : str) (rest : list str) (st st1 st' : state)
    (converted : bool) (results : list bool) :
    convert_md_to_docx (join directory_path filename) output_path st
    = (Returned converted, st1) ->
    calls directory_path output_path rest st1 results st' ->
    calls directory_path output_path (filename :: rest) st (converted :: results) st'.

(** The calls for the names [pre] return, and the call for the next name
    raises [e] in the state [st']. *)
Definition call_raises (directory_path : str) (output_path : option str)
    (pre : list str) (filename : str) (st : state) (e : exn) (st' : state) : Prop :=
  exists results st1,
    calls directory_path output_path pre st results st1
    /\ convert_md_to_docx (join directory_path filename) output_path st1 = (Raised e, st').

End ConverterVocabulary.

(** How many of the results are [b]. *)
Definition tally (b : bool) (results : list bool) : N :=
  N.of_nat (count_occ bool_dec results b).

(** ** Vocabulary of the further properties *)

(** [old] occurs somewhere in [s]. *)
Definition occurs_in (old s : str) : Prop := exists l r, s = l ++ old ++ r.

(** The names [process_element] has a branch for. *)
Definition handled_names : list str :=
  heading_names ++ [lit "p"; lit "ul"; lit "ol"; lit "blockquote"; lit "pre"; lit "hr"].

(** A node that is mapped to one paragraph of its text: a string, a
    heading, a paragraph, a quote or a code block. *)
Definition is_single_block (element : node) : bool :=
  match element with
  | NavigableString _ => true
  | Tag name _ =>
      name_in name heading_names
      || str_eqb name (lit "p") || str_eqb name (lit "blockquote") || str_eqb name (lit "pre")
  end.

(** The styles of the document: none for a rule, or one of twelve names. *)
Definition allowed_styles : list (option str) :=
  [None; Some (lit "Normal");
   Some (lit "Heading 1"); Some (lit "Heading 2"); Some (lit "Heading 3");
   Some (lit "Heading 4"); Some (lit "Heading 5"); Some (lit "Heading 6");
   Some (lit "List Bullet"); Some (lit "List Number");
   Some (lit "Quote"); Some (lit "No Spacing")].

(** A paragraph as the converter leaves it: a known style, and one run
    whose text is not empty and has no whitespace but spaces. *)
Definition well_formed (p : paragraph) : Prop :=
  In (p_style p) allowed_styles
  /\ exists r, p_runs p = [r] /\ run_text r <> [] /\ only_spaces (run_text r).

(** The last component of [root] has a character that is not a dot. *)
Definition has_stem (root : str) : Prop :=
  existsb (fun c => negb (c =? chr_dot)) (basename root) = true.

(** A file name: no slash, and a character that is not a dot. *)
Definition plain_name (stem : str) : Prop :=
  ~ In chr_slash stem /\ existsb (fun c => negb (c =? chr_dot)) stem = true.

(** An extension that is not empty: a dot, then neither dot nor slash. *)
Definition proper_extension (ext : str) : Prop :=
  exists r, ext = chr_dot :: r /\ ~ In chr_dot r /\ ~ In chr_slash r.

(** * Lemmas and theorems *)

(** *** [startswith] and [str_eqb] *)

Lemma str_eqb_eq (a b : str) : str_eqb a b = true <-> a = b.
Proof.
  revert b. induction a as [|x a IH]; intros [|y b]; simpl; try easy.
  rewrite andb_true_iff, N.eqb_eq, IH. split.
  - intros [Hx Ha]. subst. reflexivity.
  - intros [= Hx Ha]. subst. split; reflexivity.
Qed.

Lemma str_eqb_refl (a : str) : str_eqb a a = true.
Proof. now apply str_eqb_eq. Qed.

Lemma startswith_app (s prefix : str) :
  startswith s prefix = true <-> exists rest, s = prefix ++ rest.
Proof.
  revert s. induction prefix as [|p ps IH]; intros s; simpl.
  - split; [now exists s | reflexivity].
  - destruct s as [|c cs].
    + split; [discriminate | intros [rest H]; discriminate].
    + rewrite andb_true_iff, N.eqb_eq, IH. split.
      * intros [-> [rest ->]]. now exists rest.
      * intros [rest [= -> ->]]. split; [reflexivity | now exists rest].
Qed.

(** *** [replace]: the fuel is enough, and the equations of the scan *)

Lemma replace_fuel_enough (old new : str) (fuel1 fuel2 : nat) (s : str) :
  (length s <= fuel1)%nat -> (length s <= fuel2)%nat -> old <> [] ->
  replace_fuel fuel1 old new s = replace_fuel fuel2 old new s.
Proof.
  intros H1 H2 Hold. revert fuel2 s H1 H2.
  induction fuel1 as [|fuel1 IH]; intros fuel2 s H1 H2.
  - destruct s; [|simpl in H1; lia]. now destruct fuel2.
  - destruct fuel2 as [|fuel2].
    + destruct s; [reflexivity | simpl in H2; lia].
    + destruct s as [|c rest]; [reflexivity|].
      cbn [replace_fuel]. simpl in H1, H2.
      destruct (startswith (c :: rest) old).
      * f_equal. destruct old as [|o old']; [easy|].
        cbn [length skipn]. apply IH; rewrite length_skipn; lia.
      * f_equal. apply IH; lia.
Qed.

Lemma replace_nil (old new : str) : old <> [] -> replace old new [] = [].
Proof. destruct old; [easy | reflexivity]. Qed.

Lemma replace_match (old new : str) (c : char) (rest : str) :
  old <> [] -> startswith (c :: rest) old = true ->
  replace old new (c :: rest) = new ++ replace old new (skipn (length old) (c :: rest)).
Proof.
  intros Hold Hm. destruct old as [|o old'] eqn:E; [easy|].
  unfold replace. cbn [length replace_fuel]. rewrite Hm. f_equal.
  cbn [skipn]. apply replace_fuel_enough; try easy; rewrite length_skipn; lia.
Qed.

Lemma replace_skip (old new : str) (c : char) (rest : str) :
  old <> [] -> startswith (c :: rest) old = false ->
  replace old new (c :: rest) = c :: replace old new rest.
Proof.
  intros Hold Hm. destruct old as [|o old'] eqn:E; [easy|].
  unfold replace. cbn [length replace_fuel]. now rewrite Hm.
Qed.

(** Induction along the scan of [replace]. *)
Lemma replace_scan_ind (old new : str) (P : str -> str -> Prop) :
  old <> [] ->
  P [] [] ->
  (forall c rest out,
      startswith (c :: rest) old = true ->
      P (skipn (length old) (c :: rest)) out -> P (c :: rest) (new ++ out)) ->
  (forall c rest out,
      startswith (c :: rest) old = false ->
      P rest out -> P (c :: rest) (c :: out)) ->
  forall s, P s (replace old new s).
Proof.
  intros Hold Hnil Hmatch Hskip s.
  remember (length s) as n eqn:Hn. revert s Hn.
  induction n as [n IH] using lt_wf_ind. intros s Hn.
  destruct s as [|c rest].
  - now rewrite replace_nil.
  - destruct (startswith (c :: rest) old) eqn:Hm.
    + rewrite replace_match by easy. apply Hmatch; [easy|].
      apply (IH (length (skipn (length old) (c :: rest)))); [|reflexivity].
      subst n. rewrite length_skipn. destruct old; [easy | simpl; lia].
    + rewrite replace_skip by easy. apply Hskip; [easy|].
      apply (IH (length rest)); [subst n; simpl; lia | reflexivity].
Qed.

(** *** Whitespace shape: basic facts *)

Lemma isspace_space : isspace chr_space = true.
Proof. reflexivity. Qed.

Lemma isspace_newline : isspace chr_newline = true.
Proof. reflexivity. Qed.

Lemma starts_ws_app (a b : str) :
  starts_ws (a ++ b) = match a with [] => starts_ws b | _ :: _ => starts_ws a end.
Proof. now destruct a. Qed.

Lemma ends_ws_app (a b : str) :
  ends_ws (a ++ b) = match b with [] => ends_ws a | _ :: _ => ends_ws b end.
Proof.
  induction a as [|x a IH]; simpl.
  - now destruct b.
  - destruct b as [|y b]; [now rewrite app_nil_r|].
    destruct a as [|x' a]; [reflexivity|]. exact IH.
Qed.

Lemma ends_ws_rev (s : str) : ends_ws (rev s) = starts_ws s.
Proof. destruct s as [|c s]; [reflexivity|]. simpl. now rewrite ends_ws_app. Qed.

Lemma no_adjacent_ws_app_l (a b : str) : no_adjacent_ws (a ++ b) -> no_adjacent_ws a.
Proof.
  induction a as [|x a IH]; simpl; [easy|].
  intros [Hx Hrest]. split; [|now apply IH].
  intros Hs. specialize (Hx Hs). rewrite starts_ws_app in Hx. now destruct a.
Qed.

Lemma no_adjacent_ws_app_r (a b : str) : no_adjacent_ws (a ++ b) -> no_adjacent_ws b.
Proof. induction a as [|x a IH]; simpl; [easy|]. intros [_ Hrest]. now apply IH. Qed.

Lemma no_adjacent_ws_skipn (n : nat) (s : str) : no_adjacent_ws s -> no_adjacent_ws (skipn n s).
Proof.
  intros H. rewrite <- (firstn_skipn n s) in H. now apply no_adjacent_ws_app_r in H.
Qed.

Lemma solid_starts (new : str) : solid new -> forall out, starts_ws (new ++ out) = false.
Proof.
  intros [Hne Hall] out. destruct new as [|c new]; [easy|].
  simpl. now inversion Hall.
Qed.

Lemma solid_ends (new : str) : solid new -> ends_ws new = false.
Proof.
  intros [_ Hall]. induction new as [|c new IH]; [reflexivity|].
  inversion Hall; subst. simpl. destruct new; [assumption | now apply IH].
Qed.

Lemma solid_no_adjacent (new out : str) :
  solid new -> no_adjacent_ws out -> no_adjacent_ws (new ++ out).
Proof.
  intros [_ Hall] Hout. induction new as [|c new IH]; [assumption|].
  inversion Hall; subst. simpl. split; [congruence | now apply IH].
Qed.

Lemma ends_ws_skipn (n : nat) (s : str) :
  ends_ws (skipn n s) = true -> ends_ws s = true.
Proof.
  intros H. rewrite <- (firstn_skipn n s), ends_ws_app.
  destruct (skipn n s); [discriminate | assumption].
Qed.

(** *** [replace] keeps a tidy text tidy *)

Lemma replace_Forall (P : char -> Prop) (old new s : str) :
  old <> [] -> Forall P new -> Forall P s -> Forall P (replace old new s).
Proof.
  intros Hold Hnew. apply (replace_scan_ind old new (fun s out => Forall P s -> Forall P out)); try easy.
  - intros c rest out _ IH H. apply Forall_app. split; [assumption|].
    apply IH. rewrite <- (firstn_skipn (length old) (c :: rest)) in H.
    now apply Forall_app in H.
  - intros c rest out _ IH H. inversion H; subst. constructor; auto.
Qed.

Lemma replace_empty_only (old new s : str) :
  old <> [] -> new <> [] -> replace old new s = [] -> s = [].
Proof.
  intros Hold Hnew.
  apply (replace_scan_ind old new (fun s out => out = [] -> s = [])); try easy.
  intros c rest out _ _ H. apply app_eq_nil in H. now destruct H.
Qed.

Lemma replace_no_adjacent_ws (old new s : str) :
  old <> [] -> solid new -> no_adjacent_ws s ->
  no_adjacent_ws (replace old new s)
  /\ (starts_ws (replace old new s) = true -> starts_ws s = true).
Proof.
  intros Hold Hnew.
  apply (replace_scan_ind old new (fun s out =>
    no_adjacent_ws s -> no_adjacent_ws out /\ (starts_ws out = true -> starts_ws s = true)));
    try easy.
  - intros c rest out _ IH H. split.
    + apply solid_no_adjacent; [assumption|]. now apply IH, no_adjacent_ws_skipn.
    + rewrite solid_starts by assumption. discriminate.
  - intros c rest out _ IH [Hc Hrest]. destruct (IH Hrest) as [IH1 IH2]. split; [|easy].
    split; [|assumption]. intros Hs. specialize (Hc Hs).
    destruct (starts_ws out) eqn:E; [|reflexivity]. rewrite IH2 in Hc; easy.
Qed.

Lemma replace_ends_ws (old new s : str) :
  old <> [] -> solid new -> ends_ws s = false -> ends_ws (replace old new s) = false.
Proof.
  intros Hold Hnew.
  enough (H : (replace old new s = [] -> s = [])
              /\ (ends_ws s = false -> ends_ws (replace old new s) = false)) by apply H.
  apply (replace_scan_ind old new (fun s out =>
    (out = [] -> s = []) /\ (ends_ws s = false -> ends_ws out = false))); try easy.
  - intros c rest out _ [_ IH]. split.
    + intros H. apply app_eq_nil in H. now destruct Hnew, H.
    + intros H. rewrite ends_ws_app. destruct out as [|o out'].
      * now apply solid_ends.
      * apply IH. destruct (ends_ws (skipn (length old) (c :: rest))) eqn:E2; [|reflexivity].
        apply ends_ws_skipn in E2. congruence.
  - intros c rest out _ [IH1 IH2]. split; [discriminate|].
    intros H. destruct out as [|o out'].
    + rewrite IH1 in H by reflexivity. exact H.
    + change (ends_ws (o :: out') = false). apply IH2.
      destruct rest; [reflexivity | exact H].
Qed.

Lemma replace_tidy (old new s : str) :
  old <> [] -> solid new -> tidy s -> tidy (replace old new s).
Proof.
  intros Hold Hnew [H1 H2 H3 H4]. split.
  - apply replace_Forall; try assumption.
    destruct Hnew as [_ Hall]. apply Forall_impl with (2 := Hall). intros c Hc; congruence.
  - now apply replace_no_adjacent_ws.
  - destruct (starts_ws (replace old new s)) eqn:E; [|reflexivity].
    apply (replace_no_adjacent_ws old new s Hold Hnew H2) in E. congruence.
  - now apply replace_ends_ws.
Qed.

(** *** [remove_multiple_spaces] and [strip] make a text tidy *)

Lemma sub_whitespace_runs_shape (b : bool) (s : str) :
  only_spaces (sub_whitespace_runs b s)
  /\ no_adjacent_ws (sub_whitespace_runs b s)
  /\ (b = true -> starts_ws (sub_whitespace_runs b s) = false).
Proof.
  revert b. induction s as [|c s IH]; intros b; simpl.
  - split; [constructor | split; [exact I | reflexivity]].
  - destruct (isspace c) eqn:Ec.
    + destruct (IH true) as (I1 & I2 & I3). destruct b; simpl.
      * split; [assumption | split; [assumption | intros _; now apply I3]].
      * split; [constructor; [reflexivity | assumption] |].
        split; [split; [intros _; now apply I3 | assumption] | discriminate].
    + destruct (IH false) as (I1 & I2 & _).
      split; [constructor; [congruence | assumption] |].
      split; [split; [congruence | assumption] | intros _; exact Ec].
Qed.

Lemma lstrip_suffix (s : str) : exists l, s = l ++ lstrip s.
Proof.
  induction s as [|c s [l IH]]; [now exists []|]. simpl.
  destruct (isspace c); [|now exists []].
  exists (c :: l). simpl. now f_equal.
Qed.

Lemma lstrip_starts (s : str) : starts_ws (lstrip s) = false.
Proof.
  induction s as [|c s IH]; [reflexivity|]. simpl.
  destruct (isspace c) eqn:E; [assumption | exact E].
Qed.

Lemma rstrip_prefix (s : str) : exists r, s = rstrip s ++ r.
Proof.
  unfold rstrip. destruct (lstrip_suffix (rev s)) as [l H].
  exists (rev l). rewrite <- rev_app_distr, <- H. now rewrite rev_involutive.
Qed.

Lemma rstrip_ends (s : str) : ends_ws (rstrip s) = false.
Proof. unfold rstrip. rewrite ends_ws_rev. apply lstrip_starts. Qed.

Lemma strip_tidy (s : str) : only_spaces s -> no_adjacent_ws s -> tidy (strip s).
Proof.
  intros H1 H2. unfold strip.
  destruct (lstrip_suffix s) as [l Hl]. destruct (rstrip_prefix (lstrip s)) as [r Hr].
  assert (Hs : s = l ++ rstrip (lstrip s) ++ r) by (rewrite <- Hr; exact Hl).
  split.
  - unfold only_spaces in *. rewrite Hs in H1.
    apply Forall_app in H1 as [_ H1]. now apply Forall_app in H1.
  - rewrite Hs in H2. apply no_adjacent_ws_app_r in H2. now apply no_adjacent_ws_app_l in H2.
  - pose proof (lstrip_starts s) as H. rewrite Hr, starts_ws_app in H.
    destruct (rstrip (lstrip s)); [reflexivity | exact H].
  - apply rstrip_ends.
Qed.

(** *** [remove_duplicate_newlines] leaves a text without newline as it is *)

Lemma sub_blank_lines_fuel_no_newline (fuel : nat) (s : str) :
  Forall (fun c => c <> chr_newline) s -> sub_blank_lines_fuel fuel s = s.
Proof.
  revert s. induction fuel as [|fuel IH]; intros s H; [reflexivity|].
  destruct s as [|c s]; [reflexivity|]. inversion H; subst. simpl.
  destruct (N.eqb_spec c chr_newline); [contradiction|]. f_equal. now apply IH.
Qed.

(** The fuel of [sub_blank_lines] is enough: a match of the pattern
    consumes at least the newline that ends it. *)
Lemma match_blank_tail_shorter (s rest : str) :
  match_blank_tail s = Some rest -> (length rest < length s)%nat.
Proof.
  revert rest. induction s as [|c s IH]; intros rest; [discriminate|].
  simpl. destruct (isspace c); [|discriminate].
  destruct (match_blank_tail s) as [rest'|].
  - intros [= <-]. specialize (IH rest' eq_refl). lia.
  - destruct (c =? chr_newline); [|discriminate]. intros [= <-]. lia.
Qed.

Lemma sub_blank_lines_fuel_enough (fuel1 fuel2 : nat) (s : str) :
  (length s <= fuel1)%nat -> (length s <= fuel2)%nat ->
  sub_blank_lines_fuel fuel1 s = sub_blank_lines_fuel fuel2 s.
Proof.
  revert fuel2 s. induction fuel1 as [|fuel1 IH]; intros fuel2 s H1 H2.
  - destruct s; [|simpl in H1; lia]. now destruct fuel2.
  - destruct fuel2 as [|fuel2]; [destruct s; [reflexivity | simpl in H2; lia]|].
    destruct s as [|c s]; [reflexivity|]. simpl in H1, H2. cbn [sub_blank_lines_fuel].
    destruct (c =? chr_newline); [|f_equal; apply IH; lia].
    destruct (match_blank_tail s) as [rest|] eqn:E; [|f_equal; apply IH; lia].
    apply match_blank_tail_shorter in E. f_equal. apply IH; lia.
Qed.

Lemma sub_blank_lines_match (rest rest' : str) :
  match_blank_tail rest = Some rest' ->
  sub_blank_lines (chr_newline :: rest) = chr_newline :: sub_blank_lines rest'.
Proof.
  intros E. unfold sub_blank_lines. cbn [length sub_blank_lines_fuel].
  rewrite N.eqb_refl, E. f_equal.
  apply match_blank_tail_shorter in E. apply sub_blank_lines_fuel_enough; lia.
Qed.

Lemma sub_blank_lines_skip (c : char) (rest : str) :
  c <> chr_newline \/ match_blank_tail rest = None ->
  sub_blank_lines (c :: rest) = c :: sub_blank_lines rest.
Proof.
  intros H. unfold sub_blank_lines. cbn [length sub_blank_lines_fuel].
  destruct (N.eqb_spec c chr_newline) as [-> | Hc].
  - destruct H as [H | H]; [contradiction | now rewrite H].
  - reflexivity.
Qed.

Lemma only_spaces_no_newline (s : str) :
  only_spaces s -> Forall (fun c => c <> chr_newline) s.
Proof.
  apply Forall_impl. intros c Hc ->. specialize (Hc eq_refl). discriminate.
Qed.

Lemma remove_duplicate_newlines_tidy (s : str) :
  tidy s -> remove_duplicate_newlines s = s.
Proof.
  intros [H _ _ _]. apply sub_blank_lines_fuel_no_newline. now apply only_spaces_no_newline.
Qed.

(** *** [clean_text] returns a tidy text *)

Lemma solid_singleton (c : char) : isspace c = false -> solid [c].
Proof. intros H. split; [discriminate | now constructor]. Qed.

Lemma quote_pattern_not_empty : quote_pattern <> [].
Proof. discriminate. Qed.

Lemma normalize_quotes_tidy (s : str) : tidy s -> tidy (normalize_quotes s).
Proof.
  intros H. unfold normalize_quotes.
  apply replace_tidy; [apply quote_pattern_not_empty | now apply solid_singleton |].
  apply replace_tidy; [discriminate | now apply solid_singleton |].
  apply replace_tidy; [discriminate | now apply solid_singleton | assumption].
Qed.

Lemma normalize_dashes_tidy (s : str) : tidy s -> tidy (normalize_dashes s).
Proof.
  intros H. apply replace_tidy; [discriminate | now apply solid_singleton | assumption].
Qed.

Lemma clean_text_steps (text : str) :
  clean_text text
  = normalize_dashes (normalize_quotes (strip (remove_multiple_spaces text))).
Proof.
  unfold clean_text. apply remove_duplicate_newlines_tidy.
  apply normalize_dashes_tidy, normalize_quotes_tidy, strip_tidy;
    apply (sub_whitespace_runs_shape false text).
Qed.

Lemma clean_text_tidy (text : str) : tidy (clean_text text).
Proof.
  rewrite clean_text_steps.
  apply normalize_dashes_tidy, normalize_quotes_tidy, strip_tidy;
    apply (sub_whitespace_runs_shape false text).
Qed.

Lemma no_adjacent_ws_no_double_space (s : str) :
  no_adjacent_ws s -> forall l r, s <> l ++ [chr_space; chr_space] ++ r.
Proof.
  intros H l r ->. apply no_adjacent_ws_app_r in H. simpl in H.
  destruct H as [H _]. specialize (H eq_refl). discriminate.
Qed.

(** *** [normalize_dashes] *)

Lemma normalize_dashes_match (text : str) :
  normalize_dashes (chr_hyphen :: chr_hyphen :: text) = chr_en_dash :: normalize_dashes text.
Proof. unfold normalize_dashes. now rewrite replace_match. Qed.

Lemma normalize_dashes_skip (c : char) (text : str) :
  startswith (c :: text) [chr_hyphen; chr_hyphen] = false ->
  normalize_dashes (c :: text) = c :: normalize_dashes text.
Proof. intros H. unfold normalize_dashes. now rewrite replace_skip. Qed.

Lemma normalize_dashes_no_pair (text : str) :
  forall l r, normalize_dashes text <> l ++ [chr_hyphen; chr_hyphen] ++ r.
Proof.
  enough (H : forall l r, normalize_dashes text <> l ++ [chr_hyphen; chr_hyphen] ++ r
              /\ (starts_hyphen (normalize_dashes text) = true -> starts_hyphen text = true))
    by (intros l r; apply (H l r)).
  unfold normalize_dashes.
  apply (replace_scan_ind [chr_hyphen; chr_hyphen] [chr_en_dash] (fun s out =>
    forall l r, out <> l ++ [chr_hyphen; chr_hyphen] ++ r
                /\ (starts_hyphen out = true -> starts_hyphen s = true))).
  - discriminate.
  - intros l r. split; [|discriminate]. now destruct l as [|? [|? ?]].
  - intros c rest out _ IH l r. split; [|discriminate].
    destruct l as [|x l]; [discriminate|]. intros [= _ E]. now apply (IH l r).
  - intros c rest out Hm IH l r. split; [|easy].
    destruct l as [|x l].
    + intros [= -> E]. destruct (IH [] []) as [_ Hs].
      rewrite E in Hs. specialize (Hs eq_refl).
      destruct rest as [|y rest]; [discriminate|]. simpl in Hs, Hm.
      now rewrite Hs in Hm.
    + intros [= _ E]. now apply (IH l r).
Qed.

Lemma clean_text_no_pair (text : str) :
  forall l r, clean_text text <> l ++ [chr_hyphen; chr_hyphen] ++ r.
Proof. rewrite clean_text_steps. apply normalize_dashes_no_pair. Qed.

(** *** The paragraphs a node appends *)

Lemma on_p_last (f : paragraph -> paragraph) (doc : document) (p : paragraph) :
  on_p f (doc ++ [p]) = doc ++ [f p].
Proof.
  induction doc as [|q doc IH]; [reflexivity|].
  change ((q :: doc) ++ [p]) with (q :: (doc ++ [p])). cbn [on_p]. rewrite IH.
  destruct (doc ++ [p]) eqn:E; [now destruct doc | reflexivity].
Qed.

Lemma on_run_last (f : run -> run) (runs : list run) (r : run) :
  on_run f (runs ++ [r]) = runs ++ [f r].
Proof.
  induction runs as [|q runs IH]; [reflexivity|].
  change ((q :: runs) ++ [r]) with (q :: (runs ++ [r])). cbn [on_run]. rewrite IH.
  destruct (runs ++ [r]) eqn:E; [now destruct runs | reflexivity].
Qed.

Lemma truthy_new_paragraph (text : str) :
  truthy text = true -> new_paragraph text = mk_paragraph None [new_run text] None None None.
Proof. unfold new_paragraph. now intros ->. Qed.

Lemma process_list_item_eq (ul : bool) (doc : document) (li : node) :
  process_list_item ul doc li
  = doc ++ when_text (clean_text (get_text li)) (list_item_paragraph ul).
Proof.
  unfold process_list_item, when_text.
  destruct (truthy (clean_text (get_text li))) eqn:E; [|now rewrite app_nil_r].
  unfold add_paragraph. rewrite !on_p_last, truthy_new_paragraph by assumption.
  reflexivity.
Qed.

Lemma process_list_items_eq (ul : bool) (items : list node) (doc : document) :
  fold_left (process_list_item ul) items doc
  = doc ++ flat_map (fun li => when_text (clean_text (get_text li)) (list_item_paragraph ul)) items.
Proof.
  revert doc. induction items as [|li items IH]; intros doc; simpl.
  - now rewrite app_nil_r.
  - now rewrite IH, process_list_item_eq, <- app_assoc.
Qed.

Lemma process_element_eq (doc : document) (element : node) :
  process_element doc element = doc ++ paragraphs_of element.
Proof.
  destruct element as [s | name children]; unfold process_element, paragraphs_of, when_text.
  - destruct (truthy (strip s)); cbn [negb]; [|now rewrite app_nil_r].
    destruct (truthy (clean_text s)) eqn:E; [|now rewrite app_nil_r].
    unfold add_paragraph. now rewrite on_p_last, truthy_new_paragraph.
  - destruct (name_in name heading_names).
    { destruct (truthy _) eqn:E; [|now rewrite app_nil_r].
      unfold add_paragraph. now rewrite on_p_last, truthy_new_paragraph. }
    destruct (str_eqb name (lit "p")).
    { destruct (truthy _) eqn:E; [|now rewrite app_nil_r].
      unfold add_paragraph. now rewrite on_p_last, truthy_new_paragraph. }
    destruct (name_in name [lit "ul"; lit "ol"]).
    { apply process_list_items_eq. }
    destruct (str_eqb name (lit "blockquote")).
    { destruct (truthy _) eqn:E; [|now rewrite app_nil_r].
      unfold add_paragraph. now rewrite !on_p_last, truthy_new_paragraph. }
    destruct (str_eqb name (lit "pre")).
    { destruct (truthy _) eqn:E; [|now rewrite app_nil_r].
      unfold add_paragraph. now rewrite !on_p_last. }
    destruct (str_eqb name (lit "hr")).
    { unfold add_paragraph. now rewrite !on_p_last. }
    now rewrite app_nil_r.
Qed.

Lemma appended_eq (element : node) : appended element = paragraphs_of element.
Proof. unfold appended. now rewrite process_element_eq. Qed.

Lemma process_html_to_docx_eq (soup : soup) (doc : document) :
  process_html_to_docx soup doc = doc ++ flat_map appended soup.
Proof.
  unfold process_html_to_docx. revert doc.
  induction soup as [|element soup IH]; intros doc; simpl.
  - now rewrite app_nil_r.
  - now rewrite IH, process_element_eq, appended_eq, <- app_assoc.
Qed.

(** *** Texts of whitespace only *)

Lemma lstrip_whitespace_only (s : str) : whitespace_only s -> lstrip s = [].
Proof.
  induction 1 as [|c s Hc _ IH]; [reflexivity|]. simpl. now rewrite Hc.
Qed.

Lemma strip_whitespace_only (s : str) : whitespace_only s -> strip s = [].
Proof. intros H. unfold strip. now rewrite lstrip_whitespace_only. Qed.

Lemma sub_whitespace_runs_whitespace_only (b : bool) (s : str) :
  whitespace_only s -> whitespace_only (sub_whitespace_runs b s).
Proof.
  intros H. revert b. induction H as [|c s Hc _ IH]; intros b; [constructor|].
  simpl. rewrite Hc. destruct b; simpl; [apply IH|]. constructor; [reflexivity | apply IH].
Qed.

Lemma clean_text_whitespace_only (s : str) : whitespace_only s -> clean_text s = [].
Proof.
  intros H. unfold clean_text, remove_multiple_spaces.
  now rewrite strip_whitespace_only by now apply sub_whitespace_runs_whitespace_only.
Qed.

Lemma whitespace_only_flat_map (f : node -> str) (l : list node) (x : node) :
  whitespace_only (flat_map f l) -> In x l -> whitespace_only (f x).
Proof.
  unfold whitespace_only. intros H Hin. induction l as [|y l IH]; [easy|].
  simpl in H. apply Forall_app in H as [H1 H2].
  destruct Hin as [-> | Hin]; [assumption | now apply IH].
Qed.

(** *** Kinds of nodes *)

Lemma when_text_length (text : str) (p : str -> paragraph) :
  (length (when_text text p) <= 1)%nat.
Proof. unfold when_text. destruct (truthy text); simpl; lia. Qed.

Lemma when_text_empty (p : str -> paragraph) : when_text [] p = [].
Proof. reflexivity. Qed.

Lemma flat_map_when_text (f : node -> str) (p : str -> paragraph) (items : list node) :
  flat_map (fun li => when_text (f li) p) items = map p (filter truthy (map f items)).
Proof.
  induction items as [|li items IH]; [reflexivity|]. simpl. rewrite IH.
  unfold when_text. now destruct (truthy (f li)).
Qed.

Lemma flat_map_when_text_nil (f : node -> str) (p : str -> paragraph) (items : list node) :
  (forall li, In li items -> f li = []) ->
  flat_map (fun li => when_text (f li) p) items = [].
Proof.
  induction items as [|li items IH]; intros H; [reflexivity|]. simpl.
  rewrite (H li) by now left. rewrite IH; [reflexivity|]. intros x Hx. apply H. now right.
Qed.

Lemma filter_all (A : Type) (f : A -> bool) (l : list A) :
  Forall (fun x => f x = true) l -> filter f l = l.
Proof. induction 1 as [|x l Hx _ IH]; [reflexivity|]. simpl. now rewrite Hx, IH. Qed.

Lemma truthy_iff (s : str) : truthy s = true <-> s <> [].
Proof. destruct s; simpl; split; congruence. Qed.

Lemma name_in_list (name : str) :
  name_in name [lit "ul"; lit "ol"] = true -> name = lit "ul" \/ name = lit "ol".
Proof.
  unfold name_in. cbn [existsb]. rewrite orb_false_r, orb_true_iff, !str_eqb_eq. tauto.
Qed.

Lemma paragraphs_of_list (ul : bool) (children : list node) :
  paragraphs_of (Tag (if ul then lit "ul" else lit "ol") children)
  = map (list_item_paragraph ul)
        (filter truthy (map (fun li => clean_text (get_text li)) (find_all (lit "li") children))).
Proof. rewrite <- flat_map_when_text. now destruct ul. Qed.

Lemma paragraphs_of_rule (children : list node) :
  paragraphs_of (Tag (lit "hr") children) = [rule_paragraph].
Proof. reflexivity. Qed.

(** *** Running the converter *)

Section ConverterFacts.

Context {platform : Platform}.

Lemma state_eta (st : state) : mk_state (world st) (stdout st) = st.
Proof. now destruct st. Qed.

Ltac run_io :=
  unfold convert_md_to_docx, try_except_OSError, convert_md_to_docx_try,
         convert_md_to_docx_except, handled, bind, call, call_write, print, ret;
  cbn [world stdout].

Lemma convert_read_fails (input_file : str) (output_path : option str) (st : state) (e : exn) :
  open_read input_file (world st) = Raised e ->
  convert_md_to_docx input_file output_path st = handled input_file st e (world st).
Proof.
  intros H. run_io. rewrite H. destruct (is_OSError e); [reflexivity|]. now rewrite state_eta.
Qed.

Lemma convert_markdown_fails (input_file : str) (output_path : option str) (st : state)
    (md_content : str) (e : exn) :
  open_read input_file (world st) = Returned md_content ->
  markdown md_content = Raised e ->
  convert_md_to_docx input_file output_path st = handled input_file st e (world st).
Proof.
  intros H1 H2. run_io. rewrite H1, H2.
  destruct (is_OSError e); [reflexivity|]. now rewrite state_eta.
Qed.

Lemma convert_parser_fails (input_file : str) (output_path : option str) (st : state)
    (md_content html : str) (e : exn) :
  open_read input_file (world st) = Returned md_content ->
  markdown md_content = Returned html ->
  BeautifulSoup html = Raised e ->
  convert_md_to_docx input_file output_path st = handled input_file st e (world st).
Proof.
  intros H1 H2 H3. run_io. rewrite H1, H2, H3.
  destruct (is_OSError e); [reflexivity|]. now rewrite state_eta.
Qed.

Lemma store_texts_accepted (texts : list str) :
  Forall accepted texts -> store_texts texts = Returned tt.
Proof.
  induction 1 as [|text texts Htext _ IH]; [reflexivity|].
  cbn [store_texts]. now rewrite Htext.
Qed.

Lemma store_texts_refused (texts : list str) (text : str) (rest : list str) (e : exn) :
  Forall accepted texts -> store_text text = Raised e ->
  store_texts (texts ++ text :: rest) = Raised e.
Proof.
  intros Htexts Htext. induction Htexts as [|t texts Ht _ IH]; cbn [app store_texts].
  - now rewrite Htext.
  - now rewrite Ht.
Qed.

Lemma run_texts_process_html_to_docx (soup : soup) :
  run_texts (process_html_to_docx soup [])
  = flat_map (fun element => run_texts (appended element)) soup.
Proof.
  rewrite process_html_to_docx_eq. cbn [app]. unfold run_texts.
  induction soup as [|element soup IH]; [reflexivity|].
  cbn [flat_map]. now rewrite flat_map_app, IH.
Qed.

Lemma build_document_cases (soup : soup) :
  build_document soup = Returned (process_html_to_docx soup [])
  \/ exists e, build_document soup = Raised e.
Proof.
  unfold build_document. destruct (store_texts _) as [[] | e]; [now left | right; now exists e].
Qed.

Lemma convert_document_fails (input_file : str) (output_path : option str) (st : state)
    (md_content html : str) (soup : soup) (e : exn) :
  open_read input_file (world st) = Returned md_content ->
  markdown md_content = Returned html ->
  BeautifulSoup html = Returned soup ->
  build_document soup = Raised e ->
  convert_md_to_docx input_file output_path st = handled input_file st e (world st).
Proof.
  intros H1 H2 H3 Hd. run_io. rewrite H1, H2, H3, Hd.
  destruct (is_OSError e); [reflexivity|]. now rewrite state_eta.
Qed.

Lemma convert_makedirs_fails (input_file : str) (output_path : option str) (st : state)
    (md_content html : str) (soup : soup) (e : exn) (w1 : World) :
  open_read input_file (world st) = Returned md_content ->
  markdown md_content = Returned html ->
  BeautifulSoup html = Returned soup ->
  build_document soup = Returned (process_html_to_docx soup []) ->
  ensure_directory (dirname (output_file_of (world st) input_file output_path)) (world st)
  = (Raised e, w1) ->
  convert_md_to_docx input_file output_path st = handled input_file st e w1.
Proof.
  intros H1 H2 H3 Hd H4. run_io. rewrite H1, H2, H3, Hd, H4. cbn [world stdout].
  now destruct (is_OSError e).
Qed.

Lemma convert_save_fails (input_file : str) (output_path : option str) (st : state)
    (md_content html : str) (soup : soup) (e : exn) (w1 w2 : World) :
  open_read input_file (world st) = Returned md_content ->
  markdown md_content = Returned html ->
  BeautifulSoup html = Returned soup ->
  build_document soup = Returned (process_html_to_docx soup []) ->
  ensure_directory (dirname (output_file_of (world st) input_file output_path)) (world st)
  = (Returned tt, w1) ->
  save (process_html_to_docx soup []) (output_file_of (world st) input_file output_path) w1
  = (Raised e, w2) ->
  convert_md_to_docx input_file output_path st = handled input_file st e w2.
Proof.
  intros H1 H2 H3 Hd H4 H5. run_io. rewrite H1, H2, H3, Hd, H4. cbn [world stdout]. rewrite H5.
  cbn [world stdout]. now destruct (is_OSError e).
Qed.

Lemma convert_succeeds (input_file : str) (output_path : option str) (st : state)
    (md_content html : str) (soup : soup) (w1 w2 : World) :
  open_read input_file (world st) = Returned md_content ->
  markdown md_content = Returned html ->
  BeautifulSoup html = Returned soup ->
  build_document soup = Returned (process_html_to_docx soup []) ->
  ensure_directory (dirname (output_file_of (world st) input_file output_path)) (world st)
  = (Returned tt, w1) ->
  save (process_html_to_docx soup []) (output_file_of (world st) input_file output_path) w1
  = (Returned tt, w2) ->
  convert_md_to_docx input_file output_path st
  = (Returned true,
     mk_state w2 (stdout st ++ [success_line input_file
                                  (output_file_of (world st) input_file output_path)])).
Proof.
  intros H1 H2 H3 Hd H4 H5. run_io. rewrite H1, H2, H3, Hd, H4. cbn [world stdout]. rewrite H5.
  reflexivity.
Qed.

Lemma convert_md_to_docx_conversion (input_file : str) (output_path : option str) (st : state) :
  conversion input_file output_path st (convert_md_to_docx input_file output_path st).
Proof.
  destruct (open_read input_file (world st)) as [md_content | e] eqn:H1;
    [|rewrite (convert_read_fails _ _ _ _ H1); constructor].
  destruct (markdown md_content) as [html | e] eqn:H2;
    [|rewrite (convert_markdown_fails _ _ _ _ _ H1 H2); constructor].
  destruct (BeautifulSoup html) as [soup | e] eqn:H3;
    [|rewrite (convert_parser_fails _ _ _ _ _ _ H1 H2 H3); constructor].
  destruct (build_document_cases soup) as [Hd | [e Hd]];
    [|rewrite (convert_document_fails _ _ _ _ _ _ _ H1 H2 H3 Hd); constructor].
  destruct (ensure_directory (dirname (output_file_of (world st) input_file output_path))
                             (world st)) as [[[] | e] w1] eqn:H4;
    [|rewrite (convert_makedirs_fails _ _ _ _ _ _ _ _ H1 H2 H3 Hd H4); constructor].
  destruct (save (process_html_to_docx soup []) (output_file_of (world st) input_file output_path) w1)
    as [[[] | e] w2] eqn:H5;
    [|rewrite (convert_save_fails _ _ _ _ _ _ _ _ _ H1 H2 H3 Hd H4 H5); constructor].
  rewrite (convert_succeeds _ _ _ _ _ _ _ _ H1 H2 H3 Hd H4 H5). econstructor. exact H5.
Qed.

End ConverterFacts.

(** *** [rfind] and [splitext] *)

Lemma rfind_from_spec (c : char) (s : str) (i : Z) :
  (0 <= i)%Z ->
  (rfind_from i s c = (-1)%Z /\ ~ In c s)
  \/ (exists l r, s = l ++ c :: r /\ ~ In c r
                  /\ rfind_from i s c = (i + Z.of_nat (length l))%Z).
Proof.
  revert i. induction s as [|x s IH]; intros i Hi; [left; now split|].
  cbn [rfind_from]. destruct (IH (i + 1)%Z ltac:(lia)) as [[E Hn] | (l & r & -> & Hr & E)].
  - rewrite E. cbn [Z.leb Z.compare]. destruct (N.eqb_spec x c) as [-> | Hx].
    + right. exists [], s. repeat split; [assumption | simpl; lia].
    + left. split; [reflexivity|]. intros [H | H]; [congruence | contradiction].
  - right. exists (x :: l), r. rewrite E.
    destruct (Z.leb_spec 0 (i + 1 + Z.of_nat (length l))); [|lia].
    repeat split; [assumption | simpl length; lia].
Qed.

Lemma rfind_spec (c : char) (s : str) :
  (rfind s c = (-1)%Z /\ ~ In c s)
  \/ (exists l r, s = l ++ c :: r /\ ~ In c r /\ rfind s c = Z.of_nat (length l)).
Proof. apply (rfind_from_spec c s 0). lia. Qed.

Lemma rfind_from_app_free (c : char) (l x : str) (i : Z) :
  ~ In c x -> rfind_from i (l ++ x) c = rfind_from i l c.
Proof.
  intros Hx. revert i. induction l as [|y l IH]; intros i.
  - simpl. induction x as [|z x IHx] in i, Hx |- *; [reflexivity|].
    cbn [rfind_from]. rewrite IHx by (intros H; apply Hx; now right).
    cbn [Z.leb Z.compare]. destruct (N.eqb_spec z c); [|reflexivity].
    exfalso. apply Hx. now left.
  - cbn [app rfind_from]. now rewrite IH.
Qed.

Lemma rfind_bound (c : char) (s : str) : (-1 <= rfind s c < Z.of_nat (length s))%Z.
Proof.
  destruct (rfind_spec c s) as [[E _] | (l & r & -> & _ & E)]; rewrite E.
  - lia.
  - rewrite length_app. simpl. lia.
Qed.

Lemma splitext_app (p : str) : fst (splitext p) ++ snd (splitext p) = p.
Proof.
  unfold splitext. destruct (_ <? _)%Z; [|apply app_nil_r].
  destruct (existsb _ _); [apply firstn_skipn | apply app_nil_r].
Qed.

Lemma splitext_extension (p : str) : is_extension (snd (splitext p)).
Proof.
  unfold splitext. destruct (Z.ltb_spec (rfind p chr_slash) (rfind p chr_dot)) as [Hlt|];
    [|now left].
  destruct (existsb _ _); [|now left]. right. cbn [snd]. unfold slice_from.
  destruct (rfind_spec chr_dot p) as [[E _] | (l & r & Hp & Hr & E)].
  { pose proof (rfind_bound chr_slash p). lia. }
  exists r. rewrite E, Nat2Z.id. rewrite Hp at 1.
  rewrite skipn_app, Nat.sub_diag, skipn_all. split; [reflexivity|]. split; [assumption|].
  destruct (rfind_spec chr_slash p) as [[_ Hn] | (l' & r' & Hp' & Hr' & E')].
  - intros H. apply Hn. rewrite Hp. apply in_or_app. right. now right.
  - intros H. apply Hr'. rewrite E, E' in Hlt.
    assert (Hs : skipn (S (length l')) p = r').
    { rewrite Hp'. rewrite skipn_app, skipn_all2 by lia.
      replace (S (length l') - length l')%nat with 1%nat by lia. reflexivity. }
    rewrite <- Hs, Hp, skipn_app. apply in_or_app. right.
    replace (S (length l') - length l)%nat with 0%nat by lia. now right.
Qed.

Lemma dirname_app_free (p x : str) : ~ In chr_slash x -> dirname (p ++ x) = dirname p.
Proof.
  intros Hx. unfold dirname, rfind. rewrite rfind_from_app_free by assumption.
  pose proof (rfind_bound chr_slash p) as Hb. unfold rfind in Hb.
  unfold slice_to. rewrite firstn_app.
  replace (Z.to_nat (rfind_from 0 p chr_slash + 1) - length p)%nat with 0%nat by lia.
  now rewrite app_nil_r.
Qed.

Lemma dirname_splitext (p : str) :
  dirname (fst (splitext p) ++ lit ".docx") = dirname p.
Proof.
  rewrite dirname_app_free by (vm_compute; intuition discriminate).
  rewrite <- (splitext_app p) at 2.
  destruct (splitext_extension p) as [-> | (r & -> & _ & Hr)]; [now rewrite app_nil_r|].
  symmetry. apply dirname_app_free. intros [H | H]; [discriminate | contradiction].
Qed.

(** *** The batch loop *)

Lemma lower_char_dot (c : char) : lower_char c = chr_dot <-> c = chr_dot.
Proof.
  unfold lower_char, chr_dot.
  destruct (N.leb_spec 65 c), (N.leb_spec c 90); cbn [andb]; lia.
Qed.

Lemma lower_char_letter (c : char) (l : char) :
  (97 <= l <= 122) -> lower_char c = l <-> (c = l \/ c = l - 32).
Proof.
  intros Hl. unfold lower_char.
  destruct (N.leb_spec 65 c), (N.leb_spec c 90); cbn [andb]; lia.
Qed.

Lemma is_markdown_name_iff (filename : str) :
  is_markdown_name filename = true <-> markdown_suffix filename.
Proof.
  assert (Hm_range : 97 <= 109 <= 122) by lia.
  assert (Hd_range : 97 <= 100 <= 122) by lia.
  unfold is_markdown_name, endswith, lower, markdown_suffix.
  rewrite <- map_rev. split.
  - intros H. destruct (rev filename) as [|d [|m [|dot stem]]] eqn:E;
      cbn [map rev lit app startswith] in H;
      try (rewrite ?andb_false_r in H; discriminate).
    rewrite andb_true_r, !andb_true_iff, !N.eqb_eq in H.
    destruct H as (Hd & Hm & Hdot).
    apply (proj1 (lower_char_dot dot)) in Hdot. subst dot.
    apply (proj1 (lower_char_letter m 109 Hm_range)) in Hm.
    apply (proj1 (lower_char_letter d 100 Hd_range)) in Hd.
    exists (rev stem), m, d. split; [|split; [exact Hm | exact Hd]].
    rewrite <- (rev_involutive filename), E. simpl. now rewrite <- !app_assoc.
  - intros (stem & m & d & -> & Hm & Hd).
    rewrite rev_app_distr. cbn [map rev lit app startswith].
    apply (proj2 (lower_char_letter m 109 Hm_range)) in Hm.
    apply (proj2 (lower_char_letter d 100 Hd_range)) in Hd.
    rewrite Hm, Hd. reflexivity.
Qed.

Section BatchFacts.

Context {platform : Platform}.

Lemma conversion_inv (input_file : str) (output_path : option str) (st : state)
    (r : outcome bool * state) :
  conversion input_file output_path st r ->
  match r with
  | (Returned _, st') => exists line, stdout st' = stdout st ++ [line]
  | (Raised e, st') => is_OSError e = false /\ stdout st' = stdout st
  end.
Proof.
  intros [soup w1 w2 _ | e w]; [now eexists|].
  unfold handled. destruct (is_OSError e) eqn:E; [now eexists | now split].
Qed.

Lemma convert_entries_counts (directory_path : str) (output_path : option str)
    (filenames : list str) (counts : N * N) (st : state) :
  match convert_entries directory_path output_path filenames counts st with
  | (Returned (successes, failures), st') =>
      successes + failures
      = fst counts + snd counts + N.of_nat (length (matches filenames))
      /\ fst counts <= successes /\ snd counts <= failures
      /\ exists lines, stdout st' = stdout st ++ lines
                       /\ length lines = length (matches filenames)
  | (Raised e, _) => is_OSError e = false
  end.
Proof.
  revert counts st. induction filenames as [|filename rest IH]; intros counts st.
  - simpl. unfold ret. destruct counts as [s f]. simpl.
    repeat split; try lia. exists []. now rewrite app_nil_r.
  - cbn [convert_entries matches filter]. fold (matches rest).
    destruct (is_markdown_name filename); [|apply IH].
    unfold bind.
    pose proof (conversion_inv _ _ _ _
      (convert_md_to_docx_conversion (join directory_path filename) output_path st)) as Hc.
    destruct (convert_md_to_docx (join directory_path filename) output_path st)
      as [[converted | e] st1]; [|apply Hc].
    destruct Hc as [line Hline].
    destruct converted.
    + specialize (IH (fst counts + 1, snd counts) st1).
      destruct (convert_entries directory_path output_path rest _ st1) as [[[s f] | e] st2];
        [|exact IH].
      destruct IH as (Hsum & Hs & Hf & lines & Hlines & Hlen). cbn [fst snd] in *.
      split; [simpl length; lia|]. split; [lia|]. split; [lia|].
      exists (line :: lines). rewrite Hlines, Hline, <- app_assoc.
      split; [reflexivity | simpl; now rewrite Hlen].
    + specialize (IH (fst counts, snd counts + 1) st1).
      destruct (convert_entries directory_path output_path rest _ st1) as [[[s f] | e] st2];
        [|exact IH].
      destruct IH as (Hsum & Hs & Hf & lines & Hlines & Hlen). cbn [fst snd] in *.
      split; [simpl length; lia|]. split; [lia|]. split; [lia|].
      exists (line :: lines). rewrite Hlines, Hline, <- app_assoc.
      split; [reflexivity | simpl; now rewrite Hlen].
Qed.

Lemma tally_cons (b converted : bool) (results : list bool) :
  tally b (converted :: results)
  = (if Bool.eqb converted b then 1 else 0) + tally b results.
Proof.
  unfold tally. cbn [count_occ].
  destruct (bool_dec converted b) as [-> | Hne].
  - rewrite eqb_reflx. lia.
  - destruct converted, b; try congruence; cbn [Bool.eqb]; lia.
Qed.

Lemma tally_total (results : list bool) :
  tally true results + tally false results = N.of_nat (length results).
Proof.
  induction results as [|converted results IH]; [reflexivity|].
  rewrite !tally_cons. destruct converted; cbn [Bool.eqb length]; lia.
Qed.

Lemma convert_entries_calls (directory_path : str) (output_path : option str)
    (filenames : list str) (counts : N * N) (st st' : state) (results : list bool) :
  calls directory_path output_path (matches filenames) st results st' ->
  convert_entries directory_path output_path filenames counts st
  = (Returned (fst counts + tally true results, snd counts + tally false results), st').
Proof.
  revert counts st results. induction filenames as [|filename rest IH];
    intros counts st results Hcalls.
  - inversion Hcalls; subst. destruct counts as [s f]. cbn [convert_entries fst snd].
    unfold ret, tally. cbn [count_occ N.of_nat]. now rewrite !N.add_0_r.
  - unfold matches in Hcalls. cbn [filter] in Hcalls. fold (matches rest) in Hcalls.
    cbn [convert_entries]. destruct (is_markdown_name filename); [|now apply IH].
    inversion Hcalls as [|f r s0 st1 s1 converted results' Hcall Hrest]; subst.
    unfold bind. rewrite Hcall. rewrite !tally_cons.
    destruct converted; rewrite (IH _ _ _ Hrest); cbn [fst snd Bool.eqb];
      do 2 f_equal; f_equal; lia.
Qed.

Lemma convert_entries_raises (directory_path : str) (output_path : option str)
    (filenames pre : list str) (filename : str) (rest : list str) (counts : N * N)
    (st : state) (e : exn) (st' : state) :
  matches filenames = pre ++ filename :: rest ->
  call_raises directory_path output_path pre filename st e st' ->
  convert_entries directory_path output_path filenames counts st = (Raised e, st').
Proof.
  revert counts st pre. induction filenames as [|name names IH];
    intros counts st pre Hsplit (results & st1 & Hcalls & Hraise).
  - destruct pre; discriminate.
  - unfold matches in Hsplit. cbn [filter] in Hsplit. fold (matches names) in Hsplit.
    cbn [convert_entries]. destruct (is_markdown_name name).
    + destruct pre as [|p pre].
      * injection Hsplit as -> _. inversion Hcalls; subst.
        unfold bind. now rewrite Hraise.
      * injection Hsplit as -> Hsplit.
        inversion Hcalls as [|f r s0 st0 s1 converted results' Hcall Hrest]; subst.
        unfold bind. rewrite Hcall.
        destruct converted; apply (IH _ _ pre Hsplit); now exists results', st1.
    + apply (IH _ _ pre Hsplit). now exists results, st1.
Qed.

Lemma calls_or_raises (directory_path : str) (output_path : option str)
    (filenames : list str) (st : state) :
  (exists results st', calls directory_path output_path filenames st results st')
  \/ (exists pre filename rest e st',
        filenames = pre ++ filename :: rest
        /\ call_raises directory_path output_path pre filename st e st').
Proof.
  revert st. induction filenames as [|filename rest IH]; intros st.
  - left. exists [], st. constructor.
  - destruct (convert_md_to_docx (join directory_path filename) output_path st)
      as [[converted | e] st1] eqn:Hcall.
    + destruct (IH st1) as [(results & st' & Hcalls)
                           | (pre & name & rest' & e & st' & -> & results & st2 & Hcalls & Hraise)].
      * left. exists (converted :: results), st'. now apply calls_next with st1.
      * right. exists (filename :: pre), name, rest', e, st'. split; [reflexivity|].
        exists (converted :: results), st2. split; [now apply calls_next with st1 | exact Hraise].
    + right. exists [], filename, rest, e, st1. split; [reflexivity|].
      exists [], st. split; [constructor | exact Hcall].
Qed.

Lemma calls_lines (directory_path : str) (output_path : option str)
    (filenames : list str) (st : state) (results : list bool) (st' : state) :
  calls directory_path output_path filenames st results st' ->
  length results = length filenames
  /\ exists lines, stdout st' = stdout st ++ lines /\ length lines = length filenames.
Proof.
  induction 1 as [st | filename rest st st1 st' converted results Hcall _ [IHlen (lines & IHout & IHlines)]].
  - split; [reflexivity|]. exists []. now rewrite app_nil_r.
  - split; [simpl; now rewrite IHlen|].
    pose proof (conversion_inv _ _ _ _
      (convert_md_to_docx_conversion (join directory_path filename) output_path st)) as Hc.
    rewrite Hcall in Hc. destruct Hc as [line Hline].
    exists (line :: lines). rewrite IHout, Hline, <- app_assoc.
    split; [reflexivity | simpl; now rewrite IHlines].
Qed.

Lemma call_raises_lines (directory_path : str) (output_path : option str)
    (pre : list str) (filename : str) (st : state) (e : exn) (st' : state) :
  call_raises directory_path output_path pre filename st e st' ->
  is_OSError e = false
  /\ exists lines, stdout st' = stdout st ++ lines /\ length lines = length pre.
Proof.
  intros (results & st1 & Hcalls & Hraise).
  pose proof (conversion_inv _ _ _ _
    (convert_md_to_docx_conversion (join directory_path filename) output_path st1)) as Hc.
  rewrite Hraise in Hc. destruct Hc as [He Hout]. split; [exact He|].
  destruct (calls_lines _ _ _ _ _ _ Hcalls) as (_ & lines & Hlines & Hlen).
  exists lines. now rewrite Hout.
Qed.

End BatchFacts.

(** * The claims of the specification *)

(** C1, as amended.  Processing a node appends its paragraphs to the
    document and changes no earlier one; walking the soup does so node by
    node, in order.  A node that is not a list appends at most one paragraph;
    a [ul] or [ol] node appends at most one paragraph per direct [li] child.
    A node other than [hr] whose extracted text is empty or whitespace only
    appends no paragraph; an [hr] node appends exactly one. *)
Theorem process_element_paragraph_bound (element : node) (doc : document) :
  process_element doc element = doc ++ appended element
  /\ (forall soup, process_html_to_docx soup doc = doc ++ flat_map appended soup)
  /\ (is_list element = false -> (length (appended element) <= 1)%nat)
  /\ (is_list element = true ->
      (length (appended element) <= length (list_items element))%nat)
  /\ (is_rule element = false -> whitespace_only (get_text element) ->
      appended element = [])
  /\ (is_rule element = true -> length (appended element) = 1%nat).
Proof.
  split; [now rewrite appended_eq, process_element_eq|].
  split; [intros soup; apply process_html_to_docx_eq|].
  rewrite appended_eq. destruct element as [s | name children];
    unfold is_list, is_rule, has_name, list_items.
  - split; [|split; [discriminate | split; [|discriminate]]].
    + intros _. unfold paragraphs_of.
      destruct (truthy (strip s)); [apply when_text_length | simpl; lia].
    + intros _ H. unfold paragraphs_of. now rewrite (strip_whitespace_only s H).
  - split; [|split; [|split]].
    + intros E. unfold paragraphs_of. rewrite E.
      destruct (name_in name heading_names); [apply when_text_length|].
      destruct (str_eqb name (lit "p")); [apply when_text_length|].
      destruct (str_eqb name (lit "blockquote")); [apply when_text_length|].
      destruct (str_eqb name (lit "pre")); [apply when_text_length|].
      destruct (str_eqb name (lit "hr")); simpl; lia.
    + intros H. destruct (name_in_list name H) as [-> | ->].
      * rewrite (paragraphs_of_list true).
        rewrite length_map. etransitivity; [apply filter_length_le|]. now rewrite length_map.
      * rewrite (paragraphs_of_list false).
        rewrite length_map. etransitivity; [apply filter_length_le|]. now rewrite length_map.
    + intros Hr Hws. unfold paragraphs_of.
      rewrite (clean_text_whitespace_only _ Hws), !when_text_empty, Hr.
      assert (Hitems : forall ul,
        flat_map (fun li => when_text (clean_text (get_text li)) (list_item_paragraph ul))
                 (find_all (lit "li") children) = []).
      { intros ul. apply flat_map_when_text_nil. intros li Hli.
        apply filter_In in Hli as [Hli _].
        apply clean_text_whitespace_only.
        now apply (whitespace_only_flat_map get_text children). }
      rewrite Hitems.
      destruct (name_in name heading_names); [reflexivity|].
      destruct (str_eqb name (lit "p")); [reflexivity|].
      destruct (name_in name [lit "ul"; lit "ol"]); [reflexivity|].
      destruct (str_eqb name (lit "blockquote")); [reflexivity|].
      destruct (str_eqb name (lit "pre")); reflexivity.
    + intros H. apply str_eqb_eq in H. now subst.
Qed.

(** C1 at a paragraph of blanks, which appends nothing, and at a list of
    two items. *)
Lemma process_element_paragraph_bound_witness :
  appended (Tag (lit "p") [NavigableString (lit "  ")]) = []
  /\ (length (appended two_item_list) <= 2)%nat.
Proof.
  split.
  - apply (process_element_paragraph_bound (Tag (lit "p") [NavigableString (lit "  ")]) []).
    + reflexivity.
    + repeat constructor.
  - apply (process_element_paragraph_bound two_item_list []). reflexivity.
Defined.

(** C1 as stated fails: a [ul] node with two items appends two paragraphs,
    and an [hr] node, whose extracted text is empty, appends one. *)
Lemma list_node_appends_two_paragraphs :
  length (process_html_to_docx [two_item_list] []) = 2%nat
  /\ whitespace_only (get_text (Tag (lit "hr") []))
  /\ length (process_html_to_docx [Tag (lit "hr") []] []) = 1%nat.
Proof.
  split; [vm_compute; reflexivity|]. split; [constructor | vm_compute; reflexivity].
Qed.

(** C2 as stated fails: two hyphens become U+2013 EN DASH, the character
    written on line 43, and not U+2014 EM DASH. *)
Lemma double_hyphen_is_not_em_dash :
  normalize_dashes [chr_hyphen; chr_hyphen] = [chr_en_dash]
  /\ clean_text (lit "a--b") = lit "a" ++ [chr_en_dash] ++ lit "b"
  /\ clean_text (lit "a--b") <> lit "a" ++ [chr_em_dash] ++ lit "b".
Proof.
  split; [vm_compute; reflexivity|]. split; [vm_compute; reflexivity|].
  vm_compute. discriminate.
Qed.

(** C2, as amended.  The fourth step of [clean_text] scans the text from the
    left: two hyphens at the head become one en dash (U+2013) and the scan
    goes on after them; any other character is kept.  No two consecutive
    hyphens are left, neither by this step nor in the text [clean_text]
    returns, which is the result of this step: the fifth step changes
    nothing. *)
Theorem normalize_dashes_en_dash (text : str) :
  normalize_dashes [] = []
  /\ normalize_dashes (chr_hyphen :: chr_hyphen :: text)
     = chr_en_dash :: normalize_dashes text
  /\ (forall c, startswith (c :: text) [chr_hyphen; chr_hyphen] = false ->
                normalize_dashes (c :: text) = c :: normalize_dashes text)
  /\ (forall l r, normalize_dashes text <> l ++ [chr_hyphen; chr_hyphen] ++ r)
  /\ clean_text text
     = normalize_dashes (normalize_quotes (strip (remove_multiple_spaces text)))
  /\ (forall l r, clean_text text <> l ++ [chr_hyphen; chr_hyphen] ++ r).
Proof.
  split; [reflexivity|]. split; [apply normalize_dashes_match|].
  split; [intros c; apply normalize_dashes_skip|].
  split; [apply normalize_dashes_no_pair|].
  split; [apply clean_text_steps|].
  apply clean_text_no_pair.
Qed.

(** C2 at the text [a--b]. *)
Lemma normalize_dashes_en_dash_witness :
  normalize_dashes (lit "a--b") = lit "a" ++ [chr_en_dash] ++ lit "b".
Proof.
  destruct (normalize_dashes_en_dash (lit "--b")) as (_ & _ & Hskip & _).
  change (lit "a--b") with (ord "a" :: lit "--b"). rewrite (Hskip (ord "a") eq_refl).
  destruct (normalize_dashes_en_dash (lit "b")) as (_ & Hmatch & _).
  change (lit "--b") with (chr_hyphen :: chr_hyphen :: lit "b"). rewrite Hmatch.
  reflexivity.
Defined.

(** C4: [clean_text] at [idempotence_failing_input].  The first call returns
    the pattern of line 41, the second call turns it into an apostrophe, so
    the two results differ. *)
Theorem clean_text_not_idempotent :
  clean_text idempotence_failing_input = quote_pattern
  /\ clean_text (clean_text idempotence_failing_input) = [chr_squote]
  /\ clean_text (clean_text idempotence_failing_input)
     <> clean_text idempotence_failing_input.
Proof.
  split; [vm_compute; reflexivity|]. split; [vm_compute; reflexivity|].
  vm_compute. discriminate.
Qed.

(** C5.  For every input string, the text [clean_text] returns contains no
    two consecutive space characters, does not start with a whitespace
    character and does not end with one. *)
Theorem clean_text_whitespace_law (text : str) :
  (forall l r, clean_text text <> l ++ [chr_space; chr_space] ++ r)
  /\ (forall c rest, clean_text text = c :: rest -> isspace c = false)
  /\ (forall front c, clean_text text = front ++ [c] -> isspace c = false).
Proof.
  destruct (clean_text_tidy text) as [H1 H2 H3 H4]. repeat split.
  - now apply no_adjacent_ws_no_double_space.
  - intros c rest E. rewrite E in H3. exact H3.
  - intros front c E. rewrite E, ends_ws_app in H4. exact H4.
Qed.

(** C3 as stated fails: a [ul] node with one direct [li] child whose text is
    two spaces appends no paragraph. *)
Lemma list_with_empty_item_appends_nothing :
  length (find_all (lit "li") [Tag (lit "li") [NavigableString (lit "  ")]]) = 1%nat
  /\ process_element [] empty_item_list = [].
Proof. split; vm_compute; reflexivity. Qed.

(** C3, as amended.  A [ul] node appends one paragraph for each direct [li]
    child whose cleaned text is not empty, in the order of the children,
    each with style [List Bullet], left indent 36 points and the cleaned
    text as its single run; an [ol] node does the same with style
    [List Number].  So a list with N items appends at most N paragraphs, and
    exactly N when no item has an empty cleaned text. *)
Theorem list_items_to_paragraphs (ul : bool) (children : list node) (doc : document) :
  let name := if ul then lit "ul" else lit "ol" in
  let style := if ul then lit "List Bullet" else lit "List Number" in
  let items := find_all (lit "li") children in
  let texts := filter truthy (map (fun li => clean_text (get_text li)) items) in
  process_element doc (Tag name children)
  = doc ++ map (fun text => mk_paragraph (Some style) [new_run text] (Some (Pt 36)) None None)
               texts
  /\ (length texts <= length items)%nat
  /\ (Forall (fun li => clean_text (get_text li) <> []) items ->
      length texts = length items).
Proof.
  cbv zeta. split; [|split].
  - rewrite process_element_eq, paragraphs_of_list. reflexivity.
  - etransitivity; [apply filter_length_le|]. now rewrite length_map.
  - intros H. rewrite filter_all; [apply length_map|].
    apply Forall_map. apply Forall_impl with (2 := H). intros li. apply truthy_iff.
Qed.

(** C3 at a list of two items with text. *)
Lemma list_items_to_paragraphs_witness :
  length (process_element [] two_item_list) = 2%nat.
Proof.
  destruct (list_items_to_paragraphs true
              [Tag (lit "li") [NavigableString (lit "one")];
               Tag (lit "li") [NavigableString (lit "two")]] []) as (Hdoc & _ & Hall).
  unfold two_item_list. rewrite Hdoc. rewrite length_app, length_map, Hall.
  - reflexivity.
  - repeat constructor; discriminate.
Defined.

(** C6.  An [hr] node, whatever its children, appends one paragraph: no
    style of its own, centred, with a single run of thirty U+2500
    characters in 12 points. *)
Theorem horizontal_rule_paragraph (children : list node) (doc : document) :
  process_element doc (Tag (lit "hr") children)
  = doc ++ [mk_paragraph None
              [mk_run (repeat chr_box_horizontal 30) None None (Some (Pt 12))]
              None None (Some CENTER)]
  /\ length (repeat chr_box_horizontal 30) = 30%nat.
Proof. split; [now rewrite process_element_eq | reflexivity]. Qed.

Section ConverterClaims.

Context {platform : Platform}.




(** C8.  Without an output path the document goes to the input path with
    its extension replaced by [.docx], in the directory of the input; when
    the output path is an existing directory, to that directory joined
    with the base name of the input, its extension replaced by [.docx];
    otherwise to the output path as given.  [splitext] cuts the path in a
    root and an extension, the extension being empty or a dot followed by
    characters that are neither a dot nor a slash.  A conversion that
    returns [True] has saved the document at that path. *)
Theorem output_file_resolution (w : World) (input_file : str) :
  output_file_of w input_file None = fst (splitext input_file) ++ lit ".docx"
  /\ (forall output_path, isdir output_path w = true ->
        output_file_of w input_file (Some output_path)
        = join output_path (fst (splitext (basename input_file)) ++ lit ".docx"))
  /\ (forall output_path, isdir output_path w = false ->
        output_file_of w input_file (Some output_path) = output_path)
  /\ fst (splitext input_file) ++ snd (splitext input_file) = input_file
  /\ is_extension (snd (splitext input_file))
  /\ dirname (output_file_of w input_file None) = dirname input_file
  /\ (forall output_path st st',
        world st = w ->
        convert_md_to_docx input_file output_path st = (Returned true, st') ->
        exists soup w1,
          save (process_html_to_docx soup []) (output_file_of w input_file output_path) w1
          = (Returned tt, world st')).
Proof.
  split; [reflexivity|]. split; [intros o H; unfold output_file_of; now rewrite H|].
  split; [intros o H; unfold output_file_of; now rewrite H|].
  split; [apply splitext_app|]. split; [apply splitext_extension|].
  split; [apply dirname_splitext|].
  intros output_path st st' <- H.
  pose proof (convert_md_to_docx_conversion input_file output_path st) as Hc.
  rewrite H in Hc. inversion Hc as [soup w1 w2 Hsave | e w' He].
  - exists soup, w1. exact Hsave.
  - unfold handled in He. destruct (is_OSError e); discriminate.
Qed.

(** C10.  The loop tests the name of an entry only.  An entry whose name
    ends in [.md], in any case, and that cannot be read because it is a
    directory (the read raises an [OSError]) is passed to
    [convert_md_to_docx], which prints the error line and returns [False];
    the loop goes on with the failure count one higher. *)
Theorem directory_entry_counted_as_failure (directory_path : str) (output_path : option str)
    (filename : str) (rest : list str) (counts : N * N) (st : state) (msg : str) :
  is_markdown_name filename = true ->
  open_read (join directory_path filename) (world st) = Raised (OSError msg) ->
  convert_md_to_docx (join directory_path filename) output_path st
  = (Returned false,
     mk_state (world st)
       (stdout st ++ [lit "Error processing file " ++ join directory_path filename
                      ++ lit ": " ++ msg]))
  /\ convert_entries directory_path output_path (filename :: rest) counts st
     = convert_entries directory_path output_path rest (fst counts, snd counts + 1)
         (mk_state (world st)
            (stdout st ++ [lit "Error processing file " ++ join directory_path filename
                           ++ lit ": " ++ msg])).
Proof.
  intros Hname Hread.
  assert (Hc := convert_read_fails (join directory_path filename) output_path st _ Hread).
  unfold handled in Hc. cbn [is_OSError] in Hc. split; [exact Hc|].
  cbn [convert_entries]. rewrite Hname. unfold bind at 1. now rewrite Hc.
Qed.

End ConverterClaims.

(** ** The claims on the sample platform *)



(** C8 on the sample platform: an output path that is a directory, and one
    that is not. *)
Lemma output_file_resolution_witness :
  output_file_of (platform := Sample.sample_platform) Sample.docs (lit "docs/note.md") (Some (lit "out")) = lit "out/note.docx"
  /\ output_file_of (platform := Sample.sample_platform) Sample.docs (lit "docs/note.md") (Some (lit "new/x.docx"))
     = lit "new/x.docx".
Proof.
  split.
  - rewrite (proj1 (proj2 (output_file_resolution (platform := Sample.sample_platform) Sample.docs (lit "docs/note.md")))
               (lit "out")); vm_compute; reflexivity.
  - apply (proj1 (proj2 (proj2 (output_file_resolution (platform := Sample.sample_platform) Sample.docs (lit "docs/note.md"))))
             (lit "new/x.docx")). vm_compute. reflexivity.
Defined.

(** The examples of the specification, and a name that starts with a dot. *)
Example output_file_in_place :
  output_file_of (platform := Sample.sample_platform) Sample.docs (lit "note.md") None = lit "note.docx"
  /\ output_file_of (platform := Sample.sample_platform) Sample.docs (lit "D/a.md") (Some (lit "out")) = lit "out/a.docx"
  /\ output_file_of (platform := Sample.sample_platform) Sample.docs (lit ".md") None = lit ".md.docx".
Proof. repeat split; vm_compute; reflexivity. Qed.

(** C10 on the sample platform: the subdirectory [docs/sub.MD]. *)
Lemma directory_entry_counted_as_failure_witness :
  is_markdown_name (lit "sub.MD") = true
  /\ convert_entries (lit "docs") None [lit "sub.MD"] (0, 0) (Sample.start Sample.docs)
     = (Returned (0, 1),
        Sample.running Sample.docs
          [lit "Error processing file docs/sub.MD: [Errno 21] Is a directory: docs/sub.MD"]).
Proof.
  split; [vm_compute; reflexivity|].
  rewrite (proj2 (directory_entry_counted_as_failure (lit "docs") None (lit "sub.MD") []
                    (0, 0) (Sample.start Sample.docs)
                    (lit "[Errno 21] Is a directory: docs/sub.MD")
                    eq_refl eq_refl)).
  vm_compute. reflexivity.
Defined.

(** C9 at a directory with a file that is not UTF-8.  The first [.md]
    entry of [docs] cannot be decoded, and [convert_md_to_docx] does not
    return [False] for it: the [UnicodeDecodeError] of the read is no
    [OSError] and leaves the call.  The loop has no [try] of its own, so
    the batch ends there: [note.md], the next entry, is not converted,
    nothing is printed and there is no summary. *)
Lemma batch_aborts_on_undecodable_file :
  listdir (Platform := Sample.sample_platform) (lit "docs") Sample.docs
  = Returned [lit "bad.md"; lit "note.md"; lit "sub.MD"; lit "readme.txt"]
  /\ convert_directory (lit "docs") None (Sample.start Sample.docs)
     = (Raised (OtherError (lit "UnicodeDecodeError: invalid start byte")),
        Sample.start Sample.docs).
Proof. split; vm_compute; reflexivity. Qed.

(** *** A tidy text without the pattern of line 41 is a fixed point *)

Lemma sub_whitespace_runs_started (s : str) :
  starts_ws s = false -> sub_whitespace_runs true s = sub_whitespace_runs false s.
Proof. destruct s as [|c s]; [reflexivity|]. simpl. now intros ->. Qed.

Lemma remove_multiple_spaces_tidy (s : str) :
  only_spaces s -> no_adjacent_ws s -> remove_multiple_spaces s = s.
Proof.
  unfold remove_multiple_spaces. induction 1 as [|c s Hc _ IH]; [reflexivity|].
  intros [Hadj Hrest]. simpl. destruct (isspace c) eqn:E.
  - rewrite sub_whitespace_runs_started by now apply Hadj.
    rewrite IH by assumption. simpl. now rewrite (Hc eq_refl).
  - now rewrite IH.
Qed.

Lemma lstrip_started (s : str) : starts_ws s = false -> lstrip s = s.
Proof. destruct s as [|c s]; [reflexivity|]. simpl. now intros ->. Qed.

Lemma strip_fixed (s : str) : starts_ws s = false -> ends_ws s = false -> strip s = s.
Proof.
  intros H1 H2. unfold strip, rstrip. rewrite (lstrip_started s H1).
  rewrite lstrip_started; [apply rev_involutive|].
  now rewrite <- ends_ws_rev, rev_involutive.
Qed.

Lemma replace_same (c : char) (s : str) : replace [c] [c] s = s.
Proof.
  apply (replace_scan_ind [c] [c] (fun s out => out = s)); try easy.
  - intros x rest out Hm ->. simpl in Hm. rewrite andb_true_r in Hm.
    apply N.eqb_eq in Hm. now subst.
  - now intros x rest out _ ->.
Qed.

Lemma replace_free (old new s : str) : old <> [] -> free_of old s -> replace old new s = s.
Proof.
  intros Hold. apply (replace_scan_ind old new (fun s out => free_of old s -> out = s));
    try easy.
  - intros c rest out Hm _ Hfree. apply startswith_app in Hm as [r Hr].
    exfalso. now apply (Hfree [] r).
  - intros c rest out _ IH Hfree. f_equal. apply IH. intros l r ->.
    now apply (Hfree (c :: l) r).
Qed.

Lemma clean_text_fixed (s : str) :
  tidy s -> free_of quote_pattern s -> free_of [chr_hyphen; chr_hyphen] s ->
  clean_text s = s.
Proof.
  intros [H1 H2 H3 H4] Hq Hd. rewrite clean_text_steps.
  rewrite remove_multiple_spaces_tidy, strip_fixed by assumption.
  unfold normalize_quotes, normalize_dashes. rewrite !replace_same.
  rewrite (replace_free quote_pattern) by (assumption || apply quote_pattern_not_empty).
  apply replace_free; [discriminate | assumption].
Qed.

(** X1.  [clean_text] applied twice gives the result of applying it once
    whenever that result does not contain the pattern of line 41. *)
Theorem clean_text_idempotent_without_quote_pattern (text : str) :
  (forall l r, clean_text text <> l ++ quote_pattern ++ r) ->
  clean_text (clean_text text) = clean_text text.
Proof.
  intros H. apply clean_text_fixed; [apply clean_text_tidy | exact H |].
  intros l r. apply clean_text_no_pair.
Qed.

(** X1 at a text with blanks and hyphens. *)
Lemma clean_text_idempotent_without_quote_pattern_witness :
  clean_text (clean_text (lit "a  --b ")) = clean_text (lit "a  --b ").
Proof.
  apply clean_text_idempotent_without_quote_pattern.
  intros l r H.
  assert (E : length (clean_text (lit "a  --b ")) = 4%nat) by (vm_compute; reflexivity).
  rewrite H, !length_app in E. change (length quote_pattern) with 15%nat in E. lia.
Defined.

(** X2.  A heading element of level 1 to 6 whose cleaned text is not empty
    appends one paragraph with style [Heading] followed by that level. *)
Theorem heading_level_style (level : N) (children : list node) (doc : document) :
  1 <= level <= 6 ->
  let text := clean_text (get_text (Tag (lit "h" ++ format_int level) children)) in
  process_element doc (Tag (lit "h" ++ format_int level) children)
  = doc ++ (if truthy text
            then [mk_paragraph (Some (lit "Heading " ++ format_int level)) [new_run text]
                               None None None]
            else []).
Proof.
  intros H. cbv zeta. rewrite process_element_eq.
  assert (Hl : level = 1 \/ level = 2 \/ level = 3 \/ level = 4 \/ level = 5 \/ level = 6)
    by lia.
  destruct Hl as [-> | [-> | [-> | [-> | [-> | ->]]]]]; reflexivity.
Qed.

(** X2 at a heading of level 3. *)
Lemma heading_level_style_witness :
  process_element [] (Tag (lit "h3") [NavigableString (lit " Title ")])
  = [mk_paragraph (Some (lit "Heading 3")) [new_run (lit "Title")] None None None].
Proof.
  change (lit "h3") with (lit "h" ++ format_int 3).
  rewrite (heading_level_style 3 [NavigableString (lit " Title ")] []) by lia.
  vm_compute. reflexivity.
Defined.

(** * Further properties of the code *)

(** *** What [clean_text] keeps and what it drops *)

Lemma sub_whitespace_runs_keeps (b : bool) (c : char) (s : str) :
  In c s -> isspace c = false -> In c (sub_whitespace_runs b s).
Proof.
  intros Hin Hc. revert b. induction s as [|x s IH]; intros b; [contradiction|].
  simpl. destruct Hin as [-> | Hin].
  - rewrite Hc. now left.
  - destruct (isspace x); [apply in_or_app; right; now apply IH | right; now apply IH].
Qed.

Lemma lstrip_keeps (c : char) (s : str) :
  In c s -> isspace c = false -> In c (lstrip s).
Proof.
  intros Hin Hc. induction s as [|x s IH]; [contradiction|]. simpl.
  destruct (isspace x) eqn:Ex; [|exact Hin].
  destruct Hin as [-> | Hin]; [congruence | now apply IH].
Qed.

Lemma strip_keeps (c : char) (s : str) :
  In c s -> isspace c = false -> In c (strip s).
Proof.
  intros Hin Hc. unfold strip, rstrip. apply in_rev. rewrite rev_involutive.
  apply lstrip_keeps; [|assumption]. apply in_rev. rewrite rev_involutive.
  now apply lstrip_keeps.
Qed.

Lemma normalize_quotes_empty_only (s : str) : normalize_quotes s = [] -> s = [].
Proof.
  unfold normalize_quotes. intros H.
  apply replace_empty_only in H; [|apply quote_pattern_not_empty | discriminate].
  apply replace_empty_only in H; [|discriminate | discriminate].
  apply replace_empty_only in H; [assumption | discriminate | discriminate].
Qed.

Lemma clean_text_empty_only (text : str) : clean_text text = [] -> whitespace_only text.
Proof.
  rewrite clean_text_steps. intros H. unfold normalize_dashes in H.
  apply replace_empty_only in H; [|discriminate | discriminate].
  apply normalize_quotes_empty_only in H.
  apply Forall_forall. intros c Hin. destruct (isspace c) eqn:Hc; [reflexivity|].
  exfalso. pose proof (sub_whitespace_runs_keeps false c text Hin Hc) as Hk.
  apply (strip_keeps c) in Hk; [|assumption].
  unfold remove_multiple_spaces in H. now rewrite H in Hk.
Qed.

(** X3.  [clean_text] returns the empty text exactly for the texts that are
    empty or made of whitespace only. *)
Theorem clean_text_blank_iff (text : str) :
  clean_text text = [] <-> whitespace_only text.
Proof. split; [apply clean_text_empty_only | apply clean_text_whitespace_only]. Qed.

(** *** [clean_text] never makes a text longer *)

Lemma sub_whitespace_runs_length (b : bool) (s : str) :
  (length (sub_whitespace_runs b s) <= length s)%nat.
Proof.
  revert b. induction s as [|c s IH]; intros b; [simpl; lia|]. simpl.
  destruct (isspace c).
  - rewrite length_app. specialize (IH true). destruct b; simpl; lia.
  - specialize (IH false). simpl. lia.
Qed.

Lemma lstrip_length (s : str) : (length (lstrip s) <= length s)%nat.
Proof. destruct (lstrip_suffix s) as [l H]. rewrite H at 2. rewrite length_app. lia. Qed.

Lemma strip_length (s : str) : (length (strip s) <= length s)%nat.
Proof.
  unfold strip, rstrip. rewrite length_rev.
  etransitivity; [apply lstrip_length|]. rewrite length_rev. apply lstrip_length.
Qed.

Lemma startswith_length (s prefix : str) :
  startswith s prefix = true -> (length prefix <= length s)%nat.
Proof.
  intros H. apply startswith_app in H as [rest ->]. rewrite length_app. lia.
Qed.

Lemma replace_length (old new s : str) :
  old <> [] -> (length new <= length old)%nat ->
  (length (replace old new s) <= length s)%nat
  /\ (length new < length old -> occurs_in old s ->
      length (replace old new s) < length s)%nat.
Proof.
  intros Hold Hlen.
  apply (replace_scan_ind old new (fun s out =>
    (length out <= length s)%nat
    /\ (length new < length old -> occurs_in old s -> length out < length s)%nat));
    try assumption.
  - split; [simpl; lia|]. intros _ (l & r & H). symmetry in H.
    apply app_eq_nil in H as [_ H]. apply app_eq_nil in H as [H _]. contradiction.
  - intros c rest out Hm [IH _]. apply startswith_length in Hm.
    rewrite length_app. rewrite length_skipn in IH. split; intros; lia.
  - intros c rest out Hm [IH1 IH2]. split; [simpl; lia|].
    intros Hlt (l & r & H). simpl. apply -> Nat.succ_lt_mono. apply IH2; [assumption|].
    destruct l as [|x l].
    + exfalso. simpl in H. assert (E : startswith (c :: rest) old = true)
        by (apply startswith_app; now exists r). congruence.
    + exists l, r. now injection H.
Qed.

(** X4.  The text [clean_text] returns is never longer, in code points,
    than its input. *)
Theorem clean_text_never_longer (text : str) :
  (length (clean_text text) <= length text)%nat.
Proof.
  rewrite clean_text_steps. unfold normalize_dashes, normalize_quotes.
  etransitivity; [apply replace_length; [discriminate | simpl; lia]|].
  etransitivity; [apply replace_length; [apply quote_pattern_not_empty | simpl; lia]|].
  etransitivity; [apply replace_length; [discriminate | simpl; lia]|].
  etransitivity; [apply replace_length; [discriminate | simpl; lia]|].
  etransitivity; [apply strip_length|]. apply sub_whitespace_runs_length.
Qed.

(** X5.  The only whitespace character in the text [clean_text] returns is
    the space: it holds no newline and no tab. *)
Theorem clean_text_single_line (text : str) :
  (forall c, In c (clean_text text) -> isspace c = true -> c = chr_space)
  /\ ~ In chr_newline (clean_text text)
  /\ ~ In chr_tab (clean_text text).
Proof.
  pose proof (tidy_spaces _ (clean_text_tidy text)) as H.
  unfold only_spaces in H. rewrite Forall_forall in H.
  split; [exact H|]. split; intros Hin; specialize (H _ Hin eq_refl); discriminate.
Qed.

(** *** The fixed points of [clean_text] *)

Lemma free_of_not_occurs (old s : str) : free_of old s <-> ~ occurs_in old s.
Proof.
  split.
  - intros H (l & r & E). now apply (H l r).
  - intros H l r E. apply H. now exists l, r.
Qed.

(** X6.  The texts [clean_text] returns unchanged are exactly the tidy
    texts (single spaces only, none at either end) that contain neither
    two consecutive hyphens nor the pattern of line 41. *)
Theorem clean_text_fixed_points (s : str) :
  clean_text s = s
  <-> tidy s /\ free_of quote_pattern s /\ free_of [chr_hyphen; chr_hyphen] s.
Proof.
  split; [|intros (H1 & H2 & H3); now apply clean_text_fixed].
  intros H. assert (Ht : tidy s) by (rewrite <- H; apply clean_text_tidy).
  split; [exact Ht|]. split; [|intros l r; rewrite <- H; apply clean_text_no_pair].
  apply free_of_not_occurs. intros Hocc.
  assert (Hlt : (length (clean_text s) < length s)%nat); [|rewrite H in Hlt; lia].
  rewrite clean_text_steps.
  destruct Ht as [T1 T2 T3 T4].
  rewrite remove_multiple_spaces_tidy, strip_fixed by assumption.
  unfold normalize_dashes, normalize_quotes. rewrite !replace_same.
  eapply Nat.le_lt_trans; [apply replace_length; [discriminate | simpl; lia]|].
  apply replace_length; [apply quote_pattern_not_empty | simpl; lia | simpl; lia | assumption].
Qed.

(** *** Blocks of one paragraph *)

Lemma strip_blank_iff (s : str) : strip s = [] <-> whitespace_only s.
Proof.
  split; [|apply strip_whitespace_only].
  intros H. apply Forall_forall. intros c Hin.
  destruct (isspace c) eqn:Hc; [reflexivity|].
  exfalso. apply (strip_keeps c) in Hin; [|assumption]. now rewrite H in Hin.
Qed.

Lemma truthy_false_iff (s : str) : truthy s = false <-> s = [].
Proof. destruct s; simpl; split; congruence. Qed.

Lemma when_text_nil_iff (text : str) (p : str -> paragraph) :
  when_text text p = [] <-> text = [].
Proof. unfold when_text. destruct text; simpl; split; congruence. Qed.

Lemma paragraphs_of_single_block (element : node) :
  is_single_block element = true ->
  exists p, paragraphs_of element = when_text (clean_text (get_text element)) p.
Proof.
  destruct element as [s | name children]; cbn [is_single_block].
  - intros _. exists (styled (lit "Normal")). cbn [paragraphs_of get_text].
    destruct (truthy (strip s)) eqn:E; [reflexivity|].
    apply truthy_false_iff, strip_blank_iff, clean_text_whitespace_only in E.
    now rewrite E.
  - intros H. unfold paragraphs_of.
    destruct (name_in name heading_names); [eexists; reflexivity|].
    destruct (str_eqb name (lit "p")); [eexists; reflexivity|].
    cbn [orb] in H. apply orb_true_iff in H as [H | H]; apply str_eqb_eq in H; subst name;
      eexists; reflexivity.
Qed.

(** X7.  A string, a heading, a paragraph, a quote or a code block appends
    no paragraph when its text is empty or whitespace only, and exactly
    one otherwise. *)
Theorem single_block_paragraph_count (element : node) :
  is_single_block element = true ->
  (appended element = [] <-> whitespace_only (get_text element))
  /\ (length (appended element) = 1%nat <-> ~ whitespace_only (get_text element)).
Proof.
  intros H. rewrite appended_eq.
  destruct (paragraphs_of_single_block element H) as [p ->].
  rewrite when_text_nil_iff. split; [split; [apply clean_text_empty_only | apply clean_text_whitespace_only]|].
  unfold when_text. destruct (clean_text (get_text element)) eqn:E; simpl.
  - split; [discriminate|]. intros Hn. exfalso. apply Hn. now apply clean_text_empty_only.
  - split; [|reflexivity]. intros _ Hw. apply clean_text_whitespace_only in Hw. congruence.
Qed.

(** *** Elements without a branch *)

Lemma name_in_app (name : str) (a b : list str) :
  name_in name (a ++ b) = name_in name a || name_in name b.
Proof. unfold name_in. apply existsb_app. Qed.

(** X8.  An element whose name has no branch leaves the document as it is,
    whatever its children: blocks nested in it are not converted. *)
Theorem unhandled_element_ignored (name : str) (children : list node) (doc : document) :
  name_in name handled_names = false ->
  process_element doc (Tag name children) = doc.
Proof.
  unfold handled_names. rewrite name_in_app. intros H.
  apply orb_false_iff in H as [Hh H]. unfold name_in in H. cbn [existsb] in H.
  repeat (apply orb_false_iff in H as [? H]).
  rewrite process_element_eq. unfold paragraphs_of, name_in. cbn [existsb].
  fold (name_in name heading_names). rewrite Hh.
  repeat match goal with E : str_eqb name _ = false |- _ => rewrite E; clear E end.
  cbn [orb]. apply app_nil_r.
Qed.

(** X8 at a [div] that holds a paragraph. *)
Lemma unhandled_element_ignored_witness :
  process_element []
    (Tag (lit "div") [Tag (lit "p") [NavigableString (lit "inside")]]) = [].
Proof. apply unhandled_element_ignored. vm_compute. reflexivity. Defined.

(** *** Paragraphs of quotes and code blocks *)

(** X9.  A [blockquote] element whose cleaned text is not empty appends one
    paragraph with style [Quote], left indent 48 points and the text as a
    single italic run; with an empty cleaned text it appends nothing. *)
Theorem blockquote_paragraph (children : list node) (doc : document) :
  let text := clean_text (get_text (Tag (lit "blockquote") children)) in
  process_element doc (Tag (lit "blockquote") children)
  = doc ++ (if truthy text
            then [mk_paragraph (Some (lit "Quote")) [mk_run text (Some true) None None]
                               (Some (Pt 48)) None None]
            else []).
Proof. cbv zeta. now rewrite process_element_eq. Qed.

(** X10.  A [pre] element whose cleaned text is not empty appends one
    paragraph with style [No Spacing], left and right indent 36 points and
    the text as a single run in Courier New, 10 points.  The text is
    cleaned like any other: it holds no newline and no two consecutive
    spaces, so the lines and the indentation of the code are lost. *)
Theorem pre_paragraph (children : list node) (doc : document) :
  let text := clean_text (get_text (Tag (lit "pre") children)) in
  process_element doc (Tag (lit "pre") children)
  = doc ++ (if truthy text
            then [mk_paragraph (Some (lit "No Spacing"))
                    [mk_run text None (Some (lit "Courier New")) (Some (Pt 10))]
                    (Some (Pt 36)) (Some (Pt 36)) None]
            else [])
  /\ ~ In chr_newline text
  /\ (forall l r, text <> l ++ [chr_space; chr_space] ++ r).
Proof.
  cbv zeta. split; [now rewrite process_element_eq|].
  destruct (clean_text_tidy (get_text (Tag (lit "pre") children))) as [H1 H2 _ _]. split.
  - intros Hin. unfold only_spaces in H1. rewrite Forall_forall in H1.
    specialize (H1 _ Hin eq_refl). discriminate.
  - now apply no_adjacent_ws_no_double_space.
Qed.

(** *** Every paragraph is well formed *)

Lemma heading_style_allowed (name : str) :
  name_in name heading_names = true ->
  In (Some (lit "Heading " ++ format_int (int_of_digit (nth 1 name 0)))) allowed_styles.
Proof.
  unfold name_in, heading_names. cbn [existsb]. rewrite orb_false_r.
  repeat rewrite orb_true_iff. rewrite !str_eqb_eq.
  intros [-> | [-> | [-> | [-> | [-> | ->]]]]]; vm_compute; tauto.
Qed.

Lemma when_text_well_formed (text : str) (p : str -> paragraph) :
  only_spaces text ->
  (text <> [] -> well_formed (p text)) ->
  Forall well_formed (when_text text p).
Proof.
  intros _ H. unfold when_text. destruct text as [|c text]; simpl; constructor; [|constructor].
  now apply H.
Qed.

Lemma one_run_well_formed (style : option str) (r : run) (l1 l2 : option Length) (a : option N) :
  In style allowed_styles -> run_text r <> [] -> only_spaces (run_text r) ->
  well_formed (mk_paragraph style [r] l1 l2 a).
Proof. intros H1 H2 H3. split; [exact H1|]. now exists r. Qed.

Lemma paragraphs_of_well_formed (element : node) :
  Forall well_formed (paragraphs_of element).
Proof.
  assert (Hc : forall t, only_spaces (clean_text t))
    by (intros t; apply (tidy_spaces _ (clean_text_tidy t))).
  destruct element as [s | name children]; unfold paragraphs_of.
  - destruct (truthy (strip s)); [|constructor].
    apply when_text_well_formed; [apply Hc|]. intros Hne.
    apply one_run_well_formed; [vm_compute; tauto | exact Hne | apply Hc].
  - destruct (name_in name heading_names) eqn:Hh.
    { apply when_text_well_formed; [apply Hc|]. intros Hne.
      apply one_run_well_formed; [now apply heading_style_allowed | exact Hne | apply Hc]. }
    destruct (str_eqb name (lit "p")).
    { apply when_text_well_formed; [apply Hc|]. intros Hne.
      apply one_run_well_formed; [vm_compute; tauto | exact Hne | apply Hc]. }
    destruct (name_in name [lit "ul"; lit "ol"]).
    { induction (find_all (lit "li") children) as [|li items IH]; [constructor|].
      cbn [flat_map]. apply Forall_app. split; [|exact IH].
      apply when_text_well_formed; [apply Hc|]. intros Hne.
      apply one_run_well_formed; [|exact Hne | apply Hc].
      destruct (str_eqb name (lit "ul")); vm_compute; tauto. }
    destruct (str_eqb name (lit "blockquote")).
    { apply when_text_well_formed; [apply Hc|]. intros Hne.
      apply one_run_well_formed; [vm_compute; tauto | exact Hne | apply Hc]. }
    destruct (str_eqb name (lit "pre")).
    { apply when_text_well_formed; [apply Hc|]. intros Hne.
      apply one_run_well_formed; [vm_compute; tauto | exact Hne | apply Hc]. }
    destruct (str_eqb name (lit "hr")); [|constructor].
    constructor; [|constructor]. apply one_run_well_formed.
    + vm_compute. tauto.
    + discriminate.
    + apply Forall_forall. intros c Hin Hs. apply repeat_spec in Hin. subst c. discriminate.
Qed.

(** X11.  [process_html_to_docx] keeps a document well formed: every
    paragraph has a style of the fixed set (or none, for a rule) and exactly
    one run, whose text is not empty and has no whitespace but spaces. *)
Theorem process_html_to_docx_well_formed (soup : soup) (doc : document) :
  Forall well_formed doc -> Forall well_formed (process_html_to_docx soup doc).
Proof.
  intros H. rewrite process_html_to_docx_eq. apply Forall_app. split; [exact H|].
  induction soup as [|element soup IH]; [constructor|]. cbn [flat_map].
  apply Forall_app. split; [|exact IH]. rewrite appended_eq. apply paragraphs_of_well_formed.
Qed.

(** X11 at the empty document. *)
Lemma process_html_to_docx_well_formed_witness :
  Forall well_formed
    (process_html_to_docx
       [Tag (lit "h1") [NavigableString (lit "Title")]; Tag (lit "hr") []; two_item_list] []).
Proof. apply process_html_to_docx_well_formed. constructor. Defined.

(** *** [splitext] puts a root and an extension back apart *)

Lemma rfind_from_free (c : char) (s : str) (i : Z) :
  ~ In c s -> rfind_from i s c = (-1)%Z.
Proof.
  intros H. rewrite <- (app_nil_l s). now rewrite rfind_from_app_free.
Qed.

Lemma rfind_from_at (c : char) (l r : str) (i : Z) :
  (0 <= i)%Z -> ~ In c r ->
  rfind_from i (l ++ c :: r) c = (i + Z.of_nat (length l))%Z.
Proof.
  intros Hi Hr. revert i Hi. induction l as [|x l IH]; intros i Hi.
  - cbn [app rfind_from length]. rewrite (rfind_from_free c r) by assumption.
    cbn [Z.leb Z.compare]. rewrite N.eqb_refl. simpl. lia.
  - cbn [app rfind_from]. rewrite IH by lia.
    destruct (Z.leb_spec 0 (i + 1 + Z.of_nat (length l))); [|lia]. simpl length. lia.
Qed.

Lemma basename_free (s : str) : ~ In chr_slash s -> basename s = s.
Proof.
  intros H. unfold basename, rfind. now rewrite rfind_from_free.
Qed.

Lemma basename_after_slash (prefix name : str) :
  ~ In chr_slash name ->
  prefix = [] \/ (exists d, prefix = d ++ [chr_slash]) ->
  basename (prefix ++ name) = name.
Proof.
  intros Hn [-> | [d ->]]; [now apply basename_free|].
  unfold basename, rfind, slice_from. rewrite <- app_assoc. cbn [app].
  rewrite rfind_from_at by (assumption || lia).
  replace (Z.to_nat (0 + Z.of_nat (length d) + 1)) with (length d + 1)%nat by lia.
  rewrite skipn_app, skipn_all2 by lia.
  replace (length d + 1 - length d)%nat with 1%nat by lia. reflexivity.
Qed.

Lemma splitext_root_ext (root ext : str) :
  has_stem root -> proper_extension ext -> splitext (root ++ ext) = (root, ext).
Proof.
  intros Hstem (r & -> & Hdot & Hslash). unfold splitext.
  assert (Hd : rfind (root ++ chr_dot :: r) chr_dot = Z.of_nat (length root))
    by (unfold rfind; rewrite rfind_from_at by (assumption || lia); lia).
  assert (Hs : rfind (root ++ chr_dot :: r) chr_slash = rfind root chr_slash).
  { unfold rfind. apply rfind_from_app_free.
    intros [H | H]; [discriminate | contradiction]. }
  rewrite Hd, Hs. pose proof (rfind_bound chr_slash root) as Hb.
  destruct (Z.ltb_spec (rfind root chr_slash) (Z.of_nat (length root))); [|lia].
  unfold slice, slice_to, slice_from.
  assert (Hstem' : firstn (Z.to_nat (Z.of_nat (length root) - (rfind root chr_slash + 1)))
                     (skipn (Z.to_nat (rfind root chr_slash + 1)) (root ++ chr_dot :: r))
                   = basename root).
  { unfold basename, slice_from. rewrite skipn_app.
    replace (Z.to_nat (rfind root chr_slash + 1) - length root)%nat with 0%nat by lia.
    cbn [skipn]. rewrite firstn_app, length_skipn.
    replace (Z.to_nat (Z.of_nat (length root) - (rfind root chr_slash + 1))
             - (length root - Z.to_nat (rfind root chr_slash + 1)))%nat with 0%nat by lia.
    cbn [firstn]. rewrite app_nil_r. apply firstn_all2. rewrite length_skipn. lia. }
  rewrite Hstem'. unfold has_stem in Hstem. rewrite Hstem.
  rewrite Nat2Z.id. f_equal.
  - rewrite firstn_app, Nat.sub_diag, firstn_all. cbn [firstn]. apply app_nil_r.
  - rewrite skipn_app, Nat.sub_diag, skipn_all. reflexivity.
Qed.

(** X12.  [splitext] cuts a path in two parts that give the path back, and
    cuts a root followed by an extension into that root and that
    extension, when the last component of the root is not made of dots
    only. *)
Theorem splitext_round_trip (p root ext : str) :
  (fst (splitext p) ++ snd (splitext p) = p)
  /\ (has_stem root -> proper_extension ext -> splitext (root ++ ext) = (root, ext)).
Proof. split; [apply splitext_app | apply splitext_root_ext]. Qed.

Lemma proper_extension_md : proper_extension (lit ".md").
Proof. exists (lit "md"). split; [reflexivity|]. split; vm_compute; intuition discriminate. Qed.

(** X12 at a path with two dots. *)
Lemma splitext_round_trip_witness :
  splitext (lit "docs/my.notes.md") = (lit "docs/my.notes", lit ".md").
Proof.
  apply (proj2 (splitext_round_trip [] (lit "docs/my.notes") (lit ".md"))).
  - vm_compute. reflexivity.
  - apply proper_extension_md.
Defined.

Section OutputPaths.

Context {platform : Platform}.

(** X13.  Without an output path, the input [root ++ ext] is converted to
    [root ++ ".docx"]: inputs that differ in their extension only share one
    output file, and the output file is the input file itself exactly when
    the extension is [.docx]. *)
Theorem output_file_beside_input (w : World) (root ext : str) :
  has_stem root -> proper_extension ext ->
  output_file_of w (root ++ ext) None = root ++ lit ".docx"
  /\ (output_file_of w (root ++ ext) None = root ++ ext <-> ext = lit ".docx").
Proof.
  intros Hs He. unfold output_file_of. rewrite (splitext_root_ext root ext Hs He). cbn [fst].
  split; [reflexivity|]. split.
  - intros H. apply app_inv_head in H. now symmetry.
  - now intros ->.
Qed.

Lemma startswith_slash_plain (stem rest : str) :
  plain_name stem -> startswith (stem ++ rest) [chr_slash] = false.
Proof.
  intros [Hslash Hdot]. destruct stem as [|c stem]; [discriminate|].
  cbn [app startswith]. rewrite andb_true_r. apply N.eqb_neq. intros ->.
  apply Hslash. now left.
Qed.

(** X14.  When the output path is an existing directory, the input
    [stem ++ ext], alone or after a directory prefix, is converted to the
    output path joined with [stem ++ ".docx"]: the directory of the input
    plays no part. *)
Theorem output_file_in_directory (w : World) (prefix stem ext output_path : str) :
  isdir output_path w = true ->
  prefix = [] \/ (exists d, prefix = d ++ [chr_slash]) ->
  plain_name stem -> proper_extension ext ->
  output_file_of w (prefix ++ stem ++ ext) (Some output_path)
  = join output_path (stem ++ lit ".docx")
  /\ (output_path <> [] -> endswith output_path [chr_slash] = false ->
      output_file_of w (prefix ++ stem ++ ext) (Some output_path)
      = output_path ++ [chr_slash] ++ stem ++ lit ".docx").
Proof.
  intros Hdir Hprefix Hstem Hext.
  assert (Hbase : basename (prefix ++ stem ++ ext) = stem ++ ext).
  { apply basename_after_slash; [|assumption].
    destruct Hstem as [Hs _]. destruct Hext as (r & -> & _ & Hr).
    intros H. apply in_app_or in H as [H | [H | H]]; [contradiction | discriminate | contradiction]. }
  assert (Hsplit : splitext (stem ++ ext) = (stem, ext)).
  { apply splitext_root_ext; [|assumption]. unfold has_stem.
    rewrite basename_free; apply Hstem. }
  assert (Hout : output_file_of w (prefix ++ stem ++ ext) (Some output_path)
                 = join output_path (stem ++ lit ".docx")).
  { unfold output_file_of. now rewrite Hdir, Hbase, Hsplit. }
  split; [exact Hout|]. intros Hne Hend. rewrite Hout. unfold join.
  rewrite (startswith_slash_plain stem _ Hstem), Hend.
  destruct output_path; [contradiction | reflexivity].
Qed.

End OutputPaths.

Lemma plain_name_note : plain_name (lit "note").
Proof. split; [vm_compute; intuition discriminate | vm_compute; reflexivity]. Qed.

(** X13 at [docs/note.MD]. *)
Lemma output_file_beside_input_witness :
  output_file_of (platform := Sample.sample_platform) Sample.docs (lit "docs/note.MD") None
  = lit "docs/note.docx".
Proof.
  apply (output_file_beside_input (platform := Sample.sample_platform) Sample.docs
           (lit "docs/note") (lit ".MD")).
  - vm_compute. reflexivity.
  - exists (lit "MD"). split; [reflexivity|]. split; vm_compute; intuition discriminate.
Defined.

(** X14 at [docs/note.md] and the directory [out]. *)
Lemma output_file_in_directory_witness :
  output_file_of (platform := Sample.sample_platform) Sample.docs (lit "docs/note.md")
    (Some (lit "out"))
  = lit "out/note.docx".
Proof.
  apply (proj2 (output_file_in_directory (platform := Sample.sample_platform) Sample.docs
                  (lit "docs/") (lit "note") (lit ".md") (lit "out")
                  eq_refl (or_intror (ex_intro _ (lit "docs") eq_refl))
                  plain_name_note proper_extension_md)).
  - discriminate.
  - vm_compute. reflexivity.
Defined.

Section BatchAndMain.

Context {platform : Platform}.

(** X15.  [convert_md_to_docx] never raises an [OSError].  When it returns
    [True] it has printed the success line and nothing else, when it
    returns [False] the error line of an [OSError] and nothing else, and
    when it raises it has printed nothing. *)
Theorem convert_md_to_docx_reports (input_file : str) (output_path : option str) (st : state) :
  match convert_md_to_docx input_file output_path st with
  | (Returned true, st') =>
      stdout st'
      = stdout st ++ [lit "Successfully converted " ++ input_file ++ lit " to "
                      ++ output_file_of (world st) input_file output_path]
  | (Returned false, st') =>
      exists e, is_OSError e = true
                /\ stdout st'
                   = stdout st ++ [lit "Error processing file " ++ input_file ++ lit ": "
                                   ++ exn_str e]
  | (Raised e, st') => is_OSError e = false /\ stdout st' = stdout st
  end.
Proof.
  destruct (convert_md_to_docx_conversion input_file output_path st) as [soup w1 w2 _ | e w].
  - reflexivity.
  - unfold handled. destruct (is_OSError e) eqn:E; [now exists e | now split].
Qed.

(** X16.  The loop of [convert_directory] does on a listing what it does
    on the entries of the listing whose names end in [.md]: the other
    entries are never opened.  With no such entry it leaves the counts,
    the file system and the output as they are. *)
Theorem convert_entries_only_markdown (directory_path : str) (output_path : option str)
    (filenames : list str) (counts : N * N) (st : state) :
  convert_entries directory_path output_path filenames counts st
  = convert_entries directory_path output_path (filter is_markdown_name filenames) counts st
  /\ (filter is_markdown_name filenames = [] ->
      convert_entries directory_path output_path filenames counts st = (Returned counts, st)).
Proof.
  assert (H : convert_entries directory_path output_path filenames counts st
              = convert_entries directory_path output_path
                  (filter is_markdown_name filenames) counts st).
  { revert counts st. induction filenames as [|filename rest IH]; intros counts st;
      [reflexivity|].
    cbn [filter]. destruct (is_markdown_name filename) eqn:E.
    - cbn [convert_entries]. rewrite E. unfold bind.
      destruct (convert_md_to_docx (join directory_path filename) output_path st)
        as [[[] | e] st1]; [apply IH | apply IH | reflexivity].
    - cbn [convert_entries]. rewrite E. apply IH. }
  split; [exact H|]. intros Hnone. rewrite H, Hnone. reflexivity.
Qed.

(** X18.  The loop of [convert_directory] calls [convert_md_to_docx] for
    the entries whose names end in [.md], in the order of the listing, each
    call in the state the call before it left.  When every call returns,
    the loop returns with the success count raised by the number of calls
    that returned [True] and the failure count raised by the number that
    returned [False], one of the two for each call, and [convert_directory]
    prints the summary with these two numbers after the lines of the
    conversions, one line for each call.  When a call raises, the loop and
    [convert_directory] raise the same exception in the state that call
    left: the exception is no [OSError], the entries after it are not
    converted, and only the lines of the calls before it are printed, no
    summary.  One of the two cases always applies.  For a path that is not
    a directory [convert_directory] prints one error line and returns; an
    exception of [os.makedirs] or [os.listdir] leaves [convert_directory]
    before any conversion. *)
Theorem convert_directory_tally (directory_path : str) (output_path : option str) (st : state) :
  (forall filenames counts results st',
      calls directory_path output_path (filter is_markdown_name filenames) st results st' ->
      convert_entries directory_path output_path filenames counts st
      = (Returned (fst counts + tally true results, snd counts + tally false results), st')
      /\ tally true results + tally false results
         = N.of_nat (length (filter is_markdown_name filenames)))
  /\ (forall filenames counts pre filename rest e st',
        filter is_markdown_name filenames = pre ++ filename :: rest ->
        call_raises directory_path output_path pre filename st e st' ->
        convert_entries directory_path output_path filenames counts st = (Raised e, st'))
  /\ (forall filenames,
        (exists results st',
            calls directory_path output_path (filter is_markdown_name filenames) st results st')
        \/ (exists pre filename rest e st',
              filter is_markdown_name filenames = pre ++ filename :: rest
              /\ call_raises directory_path output_path pre filename st e st'))
  /\ (isdir directory_path (world st) = false ->
        convert_directory directory_path output_path st
        = (Returned tt,
           mk_state (world st)
             (stdout st ++ [lit "Error: " ++ directory_path ++ lit " is not a directory"])))
  /\ (forall w1 filenames,
        isdir directory_path (world st) = true ->
        create_output_directory output_path (world st) = (Returned tt, w1) ->
        listdir directory_path w1 = Returned filenames ->
        (forall results st',
            calls directory_path output_path (filter is_markdown_name filenames)
              (mk_state w1 (stdout st)) results st' ->
            convert_directory directory_path output_path st
            = (Returned tt,
               mk_state (world st')
                 (stdout st' ++ summary (tally true results, tally false results)))
            /\ exists lines,
                 stdout st' = stdout st ++ lines
                 /\ length lines = length (filter is_markdown_name filenames))
        /\ (forall pre filename rest e st',
              filter is_markdown_name filenames = pre ++ filename :: rest ->
              call_raises directory_path output_path pre filename
                (mk_state w1 (stdout st)) e st' ->
              convert_directory directory_path output_path st = (Raised e, st')
              /\ is_OSError e = false
              /\ exists lines, stdout st' = stdout st ++ lines /\ length lines = length pre))
  /\ (forall e w1,
        isdir directory_path (world st) = true ->
        create_output_directory output_path (world st) = (Raised e, w1) ->
        convert_directory directory_path output_path st = (Raised e, mk_state w1 (stdout st)))
  /\ (forall e w1,
        isdir directory_path (world st) = true ->
        create_output_directory output_path (world st) = (Returned tt, w1) ->
        listdir directory_path w1 = Raised e ->
        convert_directory directory_path output_path st = (Raised e, mk_state w1 (stdout st))).
Proof.
  split.
  { intros filenames counts results st' Hcalls.
    split; [now apply convert_entries_calls|].
    destruct (calls_lines _ _ _ _ _ _ Hcalls) as [<- _]. apply tally_total. }
  split; [intros filenames counts pre filename rest e st'; apply convert_entries_raises|].
  split; [intros filenames; apply calls_or_raises|].
  split.
  { intros Hdir. unfold convert_directory, bind, call, print. cbn [world stdout].
    now rewrite Hdir. }
  split.
  { intros w1 filenames Hdir Hout Hlist. split.
    - intros results st' Hcalls. split.
      + unfold convert_directory, bind at 1, call. cbn [world stdout]. rewrite Hdir. cbn [negb].
        unfold bind at 1, call_write. cbn [world stdout]. rewrite Hout.
        unfold bind at 1, call. cbn [world stdout]. rewrite Hlist.
        unfold bind at 1.
        rewrite (convert_entries_calls _ _ _ (0, 0) _ _ _ Hcalls). cbn [fst snd].
        rewrite !N.add_0_l.
        unfold print_summary, summary, bind, print. cbn [world stdout fst snd].
        now rewrite <- !app_assoc.
      + destruct (calls_lines _ _ _ _ _ _ Hcalls) as (_ & lines & Hlines & Hlen).
        now exists lines.
    - intros pre filename rest e st' Hsplit Hraise. split.
      + unfold convert_directory, bind at 1, call. cbn [world stdout]. rewrite Hdir. cbn [negb].
        unfold bind at 1, call_write. cbn [world stdout]. rewrite Hout.
        unfold bind at 1, call. cbn [world stdout]. rewrite Hlist.
        unfold bind at 1.
        now rewrite (convert_entries_raises _ _ _ _ _ _ (0, 0) _ _ _ Hsplit Hraise).
      + destruct (call_raises_lines _ _ _ _ _ _ _ Hraise) as (He & lines & Hlines & Hlen).
        split; [exact He|]. now exists lines. }
  split.
  { intros e w1 Hdir Hout. unfold convert_directory, bind at 1, call. cbn [world stdout].
    rewrite Hdir. cbn [negb]. unfold bind at 1, call_write. cbn [world stdout].
    now rewrite Hout. }
  intros e w1 Hdir Hout Hlist. unfold convert_directory, bind at 1, call. cbn [world stdout].
  rewrite Hdir. cbn [negb]. unfold bind at 1, call_write. cbn [world stdout]. rewrite Hout.
  unfold bind at 1, call. cbn [world stdout]. now rewrite Hlist.
Qed.

(** X19.  The texts of the runs reach the XML library node by node, in the
    order of the soup.  When it takes them all, the document of the soup
    is built.  When it refuses one, none before it being refused, the
    exception of that text leaves [process_html_to_docx]; if it is no
    [OSError] (it is a [ValueError]), it leaves [convert_md_to_docx] too: no
    directory is created, no document saved and no line printed. *)
Theorem refused_text_ends_conversion (input_file : str) (output_path : option str)
    (st : state) (md_content html : str) (soup : soup) :
  open_read input_file (world st) = Returned md_content ->
  markdown md_content = Returned html ->
  BeautifulSoup html = Returned soup ->
  run_texts (process_html_to_docx soup [])
  = flat_map (fun element => run_texts (appended element)) soup
  /\ (Forall accepted (run_texts (process_html_to_docx soup [])) ->
      build_document soup = Returned (process_html_to_docx soup []))
  /\ (forall texts text rest e,
        run_texts (process_html_to_docx soup []) = texts ++ text :: rest ->
        Forall accepted texts -> store_text text = Raised e ->
        build_document soup = Raised e
        /\ (is_OSError e = false ->
            convert_md_to_docx input_file output_path st = (Raised e, st))).
Proof.
  intros H1 H2 H3. split; [apply run_texts_process_html_to_docx|]. split.
  - intros Hall. unfold build_document. now rewrite (store_texts_accepted _ Hall).
  - intros texts text rest e Hsplit Htexts Htext.
    assert (Hd : build_document soup = Raised e).
    { unfold build_document. rewrite Hsplit.
      now rewrite (store_texts_refused _ _ _ _ Htexts Htext). }
    split; [exact Hd|]. intros He.
    rewrite (convert_document_fails _ _ _ _ _ _ _ H1 H2 H3 Hd). unfold handled.
    rewrite He. now rewrite state_eta.
Qed.

Lemma convert_directory_prints (directory_path : str) (output_path : option str) (st : state) :
  match convert_directory directory_path output_path st with
  | (Returned _, st') => exists line lines, stdout st' = stdout st ++ line :: lines
  | (Raised _, _) => True
  end.
Proof.
  unfold convert_directory, print_summary, bind, call, call_write, print, ret.
  cbn [world stdout].
  destruct (isdir directory_path (world st)); cbn [negb]; [|now eexists; exists []].
  destruct (create_output_directory output_path (world st)) as [[[] | e] w1];
    cbn [world stdout]; [|exact I].
  destruct (listdir directory_path w1) as [filenames | e]; [|exact I].
  pose proof (convert_entries_counts directory_path output_path filenames (0, 0)
                (mk_state w1 (stdout st))) as Hloop.
  destruct (convert_entries directory_path output_path filenames (0, 0)
              (mk_state w1 (stdout st))) as [[[successes failures] | e] st1]; [|exact I].
  destruct Hloop as (_ & _ & _ & lines & Hlines & _). cbn [world stdout fst snd] in *.
  rewrite Hlines. destruct lines as [|line lines].
  - eexists; eexists. rewrite app_nil_r, <- !app_assoc. reflexivity.
  - exists line. eexists. rewrite <- !app_assoc. reflexivity.
Qed.

Context {command_line : CommandLine platform}.

(** X17.  [main] raises a [TypeError] when the input option is left out; for
    a regular file it prints exactly one line and returns, whether the
    conversion succeeded or not, unless the conversion raises an exception
    that is not an [OSError]; for a directory it does what
    [convert_directory] does; for any other path it prints one error line
    and leaves the file system as it is.  Whenever [main] returns it has
    printed at least one line. *)
Theorem main_outcomes (args : Namespace) (st : state) :
  (args_input args = None -> main args st = (Raised isfile_of_None, st))
  /\ (forall input, args_input args = Some input ->
        isfile input (world st) = true ->
        match main args st with
        | (Returned _, st') => exists line, stdout st' = stdout st ++ [line]
        | (Raised e, st') => is_OSError e = false /\ stdout st' = stdout st
        end)
  /\ (forall input, args_input args = Some input ->
        isfile input (world st) = false -> isdir input (world st) = true ->
        main args st = convert_directory input (args_output args) st)
  /\ (forall input, args_input args = Some input ->
        isfile input (world st) = false -> isdir input (world st) = false ->
        main args st
        = (Returned tt,
           mk_state (world st)
             (stdout st ++ [lit "Error: " ++ input ++ lit " is not a valid file or directory"])))
  /\ match main args st with
     | (Returned _, st') => exists line lines, stdout st' = stdout st ++ line :: lines
     | (Raised _, _) => True
     end.
Proof.
  assert (Hfile : forall input, args_input args = Some input ->
            isfile input (world st) = true ->
            main args st
            = match convert_md_to_docx input (args_output args) st with
              | (Returned _, st') => (Returned tt, st')
              | (Raised e, st') => (Raised e, st')
              end).
  { intros input Hi Hf. unfold main. rewrite Hi. unfold bind at 1, call. cbn [world].
    rewrite Hf. unfold bind, ret. now destruct (convert_md_to_docx _ _ _) as [[b | e] st']. }
  assert (Hdir : forall input, args_input args = Some input ->
            isfile input (world st) = false -> isdir input (world st) = true ->
            main args st = convert_directory input (args_output args) st).
  { intros input Hi Hf Hd. unfold main. rewrite Hi. unfold bind at 1, call. cbn [world].
    rewrite Hf. unfold bind at 1. now rewrite Hd. }
  assert (Hnone : forall input, args_input args = Some input ->
            isfile input (world st) = false -> isdir input (world st) = false ->
            main args st
            = (Returned tt,
               mk_state (world st)
                 (stdout st ++ [lit "Error: " ++ input
                                ++ lit " is not a valid file or directory"]))).
  { intros input Hi Hf Hd. unfold main. rewrite Hi. unfold bind at 1, call. cbn [world].
    rewrite Hf. unfold bind at 1. now rewrite Hd. }
  split; [intros Hi; unfold main; now rewrite Hi|].
  split.
  { intros input Hi Hf. rewrite (Hfile input Hi Hf).
    pose proof (convert_md_to_docx_conversion input (args_output args) st) as Hc.
    apply conversion_inv in Hc.
    now destruct (convert_md_to_docx input (args_output args) st) as [[b | e] st']. }
  split; [exact Hdir|]. split; [exact Hnone|].
  destruct (args_input args) as [input|] eqn:Hi; [|unfold main; rewrite Hi; exact I].
  destruct (isfile input (world st)) eqn:Hf.
  - rewrite (Hfile input eq_refl Hf).
    pose proof (convert_md_to_docx_conversion input (args_output args) st) as Hc.
    apply conversion_inv in Hc.
    destruct (convert_md_to_docx input (args_output args) st) as [[b | e] st']; [|exact I].
    destruct Hc as [line Hline]. now exists line, [].
  - destruct (isdir input (world st)) eqn:Hd.
    + rewrite (Hdir input eq_refl Hf Hd). apply convert_directory_prints.
    + rewrite (Hnone input eq_refl Hf Hd). cbn [stdout]. now eexists; exists [].
Qed.

End BatchAndMain.

(** X16 at a listing without Markdown files. *)
Lemma convert_entries_only_markdown_witness :
  convert_entries (lit "docs") None [lit "readme.txt"; lit "notes"] (0, 0)
    (Sample.start Sample.docs)
  = (Returned (0, 0), Sample.start Sample.docs).
Proof.
  apply (proj2 (convert_entries_only_markdown (lit "docs") None
                  [lit "readme.txt"; lit "notes"] (0, 0) (Sample.start Sample.docs))).
  vm_compute. reflexivity.
Defined.

(** X18 at a directory with a file that converts and a subdirectory whose
    name ends in [.MD]: one success, one failure, and the summary. *)
Lemma convert_directory_tally_witness :
  convert_directory (lit "docs") (Some (lit "out"))
    (Sample.start (skipn 3 Sample.docs ++ firstn 2 Sample.docs))
  = (Returned tt,
     Sample.running ((lit "out/note.docx", Sample.BinaryFile)
               :: skipn 3 Sample.docs ++ firstn 2 Sample.docs)
       ([lit "Successfully converted docs/note.md to out/note.docx";
         lit "Error processing file docs/sub.MD: [Errno 21] Is a directory: docs/sub.MD"]
        ++ [chr_newline :: lit "Conversion complete!";
            lit "Successfully converted: 1 files";
            lit "Failed conversions: 1 files"])).
Proof.
  refine (proj1 (proj1 (proj1 (proj2 (proj2 (proj2 (proj2
            (convert_directory_tally (lit "docs") (Some (lit "out"))
               (Sample.start (skipn 3 Sample.docs ++ firstn 2 Sample.docs)))))))
            (skipn 3 Sample.docs ++ firstn 2 Sample.docs)
            [lit "note.md"; lit "sub.MD"; lit "readme.txt"] _ _ _)
            [true; false]
            (Sample.running ((lit "out/note.docx", Sample.BinaryFile)
                               :: skipn 3 Sample.docs ++ firstn 2 Sample.docs)
               [lit "Successfully converted docs/note.md to out/note.docx";
                lit "Error processing file docs/sub.MD: [Errno 21] Is a directory: docs/sub.MD"])
            _)).
  - vm_compute. reflexivity.
  - vm_compute. reflexivity.
  - vm_compute. reflexivity.
  - apply calls_next
      with (st1 := Sample.running ((lit "out/note.docx", Sample.BinaryFile)
                                     :: skipn 3 Sample.docs ++ firstn 2 Sample.docs)
                     [lit "Successfully converted docs/note.md to out/note.docx"]);
      [vm_compute; reflexivity|].
    apply calls_next
      with (st1 := Sample.running ((lit "out/note.docx", Sample.BinaryFile)
                                     :: skipn 3 Sample.docs ++ firstn 2 Sample.docs)
                     [lit "Successfully converted docs/note.md to out/note.docx";
                      lit "Error processing file docs/sub.MD: [Errno 21] Is a directory: docs/sub.MD"]);
      [vm_compute; reflexivity | constructor].
Defined.

(** X19 at [drafts/ctl.md], whose text holds the character U+0001. *)
Lemma refused_text_ends_conversion_witness :
  convert_md_to_docx (lit "drafts/ctl.md") None (Sample.start Sample.drafts)
  = (Raised (OtherError (lit "ValueError: All strings must be XML compatible")),
     Sample.start Sample.drafts).
Proof.
  refine (proj2 (proj2 (proj2 (refused_text_ends_conversion
            (lit "drafts/ctl.md") None (Sample.start Sample.drafts)
            (lit "a" ++ [1] ++ lit "b") (lit "a" ++ [1] ++ lit "b")
            [Tag (lit "p") [NavigableString (lit "a" ++ [1] ++ lit "b")]] _ _ _))
            [] (lit "a" ++ [1] ++ lit "b") []
            (OtherError (lit "ValueError: All strings must be XML compatible")) _ _ _) _).
  - vm_compute. reflexivity.
  - reflexivity.
  - reflexivity.
  - vm_compute. reflexivity.
  - constructor.
  - vm_compute. reflexivity.
  - reflexivity.
Defined.

(** X17 at a path that does not exist, and without an input. *)
Lemma main_outcomes_witness :
  main (mk_Namespace (Some (lit "docs/sub.MD/x")) None) (Sample.start Sample.docs)
  = (Returned tt,
     Sample.running Sample.docs
       [lit "Error: docs/sub.MD/x is not a valid file or directory"])
  /\ main (mk_Namespace None None) (Sample.start Sample.docs)
     = (Raised isfile_of_None, Sample.start Sample.docs).
Proof.
  split.
  - apply (proj1 (proj2 (proj2 (proj2 (main_outcomes
             (mk_Namespace (Some (lit "docs/sub.MD/x")) None) (Sample.start Sample.docs)))))
             (lit "docs/sub.MD/x") eq_refl); vm_compute; reflexivity.
  - apply (proj1 (main_outcomes (mk_Namespace None None) (Sample.start Sample.docs))).
    reflexivity.
Defined.

(** X7 at a code block. *)
Lemma single_block_paragraph_count_witness :
  length (appended (Tag (lit "pre") [NavigableString (lit "x = 1")])) = 1%nat.
Proof.
  apply (proj2 (single_block_paragraph_count
                  (Tag (lit "pre") [NavigableString (lit "x = 1")]) eq_refl)).
  intros H. apply Forall_inv in H. discriminate H.
Defined.
